(** * pullhook: a shallow embedding of [main.go]

    pullhook is a small daemon that runs [git pull] when a GitHub webhook
    is delivered.  This development embeds the functions of [main.go]
    ([normalizeUTF8], [roundTime], [pullRepo], [server.ServeHTTP],
    [mainImpl], [main]) and settles the properties stated about them.

    Conventions.
    - A Go [[]byte] is a [list byte]; a Go [string] that is only compared
      or logged is a [string].
    - [time.Duration] and [int] are 64-bit signed integers: they are [Z]
      values with the wrap-around written out ([wrap64]).
    - A Go [error] is an [option]: [None] is [nil].
    - Effects (logging, response writes, running a subprocess, operations
      on the mutex and the wait group) are recorded as a list of [action]s
      in program order. *)

From Stdlib Require Import ZArith List Bool Lia.
From Stdlib.Strings Require Import String Ascii Byte.
From Stdlib Require Import DecimalString.
From Equations Require Import Equations.
Import ListNotations.

#[local] Open Scope Z_scope.

(** ** Package [unicode/utf8] of the Go standard library

    [normalizeUTF8] calls [utf8.Valid] and [utf8.DecodeRune].  They belong
    to the Go standard library, not to this repository; they are
    transcribed here from the library's table-driven implementation. *)

Module utf8.

Definition RuneError : Z := 0xFFFD.
Definition RuneSelf : Z := 0x80.

Definition maskx : Z := 0x3F.
Definition mask2 : Z := 0x1F.
Definition mask3 : Z := 0x0F.
Definition mask4 : Z := 0x07.

Definition locb : Z := 0x80.
Definition hicb : Z := 0xBF.

(** Entries of the [first] table: the low three bits give the size of
    the encoding, the high four bits index [acceptRanges]. *)
Definition xx : Z := 0xF1.
Definition as_ : Z := 0xF0.
Definition s1 : Z := 0x02.
Definition s2 : Z := 0x13.
Definition s3 : Z := 0x03.
Definition s4 : Z := 0x23.
Definition s5 : Z := 0x34.
Definition s6 : Z := 0x04.
Definition s7 : Z := 0x44.

(** The numeric value of a byte. *)
Definition bz (b : byte) : Z := Z.of_N (Byte.to_N b).

(** [first[b]]: information about the first byte of an encoding. *)
Definition first (b : Z) : Z :=
  if b <? 0x80 then as_
  else if b <? 0xC2 then xx
  else if b <? 0xE0 then s1
  else if b =? 0xE0 then s2
  else if b <? 0xED then s3
  else if b =? 0xED then s4
  else if b <? 0xF0 then s3
  else if b =? 0xF0 then s5
  else if b <? 0xF4 then s6
  else if b =? 0xF4 then s7
  else xx.

(** [acceptRanges[i]] as a pair [(lo, hi)]; the entries beyond the
    fifth are zero-valued in the Go table. *)
Definition acceptRanges (i : Z) : Z * Z :=
  if i =? 0 then (locb, hicb)
  else if i =? 1 then (0xA0, hicb)
  else if i =? 2 then (locb, 0x9F)
  else if i =? 3 then (0x90, hicb)
  else if i =? 4 then (locb, 0x8F)
  else (0, 0).

(** Is the continuation byte [c] outside [lo..hi]? *)
Definition outside (c lo hi : Z) : bool := (c <? lo) || (hi <? c).

(** The code point of a two-, three- and four-byte encoding:
    [rune(p0&mask2)<<6 | rune(b1&maskx)] and so on. *)
Definition rune2 (p0 b1 : Z) : Z :=
  Z.lor (Z.shiftl (Z.land p0 mask2) 6) (Z.land b1 maskx).

Definition rune3 (p0 b1 b2 : Z) : Z :=
  Z.lor (Z.lor (Z.shiftl (Z.land p0 mask3) 12)
               (Z.shiftl (Z.land b1 maskx) 6))
        (Z.land b2 maskx).

Definition rune4 (p0 b1 b2 b3 : Z) : Z :=
  Z.lor (Z.lor (Z.lor (Z.shiftl (Z.land p0 mask4) 18)
                      (Z.shiftl (Z.land b1 maskx) 12))
               (Z.shiftl (Z.land b2 maskx) 6))
        (Z.land b3 maskx).

(** [utf8.DecodeRune]: the first rune of [p] and its width in bytes.
    An empty [p] gives [(RuneError, 0)], an ill-formed encoding gives
    [(RuneError, 1)]. *)
Definition DecodeRune (p : list byte) : Z * nat :=
  match p with
  | [] => (RuneError, 0%nat)
  | p0 :: t0 =>
    let x := first (bz p0) in
    if as_ <=? x then
      (* ASCII ([x = as_]) or an invalid first byte ([x = xx]) *)
      (if x =? xx then RuneError else bz p0, 1%nat)
    else
      let sz := Z.land x 7 in
      let accept := acceptRanges (Z.shiftr x 4) in
      if Z.of_nat (List.length p) <? sz then (RuneError, 1%nat)
      else
        match t0 with
        | [] => (RuneError, 1%nat)
        | b1 :: t1 =>
          if outside (bz b1) (fst accept) (snd accept) then (RuneError, 1%nat)
          else if sz <=? 2 then
            (rune2 (bz p0) (bz b1), 2%nat)
          else
            match t1 with
            | [] => (RuneError, 1%nat)
            | b2 :: t2 =>
              if outside (bz b2) locb hicb then (RuneError, 1%nat)
              else if sz <=? 3 then
                (rune3 (bz p0) (bz b1) (bz b2), 3%nat)
              else
                match t2 with
                | [] => (RuneError, 1%nat)
                | b3 :: _ =>
                  if outside (bz b3) locb hicb then (RuneError, 1%nat)
                  else
                    (rune4 (bz p0) (bz b1) (bz b2) (bz b3), 4%nat)
                end
            end
        end
  end.

(** [utf8.Valid]: does [p] consist entirely of well-formed encodings?
    The Go loop walks an index [i] through [p]; here the recursion is
    on the suffix [p[i:]].  (The Go function first skips blocks of eight
    ASCII bytes, which the general loop treats the same way.) *)
Fixpoint Valid (p : list byte) : bool :=
  match p with
  | [] => true
  | p0 :: t0 =>
    if bz p0 <? RuneSelf then Valid t0
    else
      let x := first (bz p0) in
      if x =? xx then false
      else
        let size := Z.land x 7 in
        if Z.of_nat (List.length p) <? size then false
        else
          let accept := acceptRanges (Z.shiftr x 4) in
          match t0 with
          | [] => false
          | c1 :: t1 =>
            if outside (bz c1) (fst accept) (snd accept) then false
            else if size =? 2 then Valid t1
            else
              match t1 with
              | [] => false
              | c2 :: t2 =>
                if outside (bz c2) locb hicb then false
                else if size =? 3 then Valid t2
                else
                  match t2 with
                  | [] => false
                  | c3 :: t3 =>
                    if outside (bz c3) locb hicb then false
                    else Valid t3
                  end
              end
          end
  end.

End utf8.

(** ** [normalizeUTF8] *)

(** A non-empty slice is decoded with a positive width, so the loop of
    [normalizeUTF8] consumes its input. *)
Lemma DecodeRune_size_pos (p0 : byte) (t : list byte) :
  (1 <= snd (utf8.DecodeRune (p0 :: t)))%nat.
Proof.
  unfold utf8.DecodeRune.
  repeat match goal with
         | |- context [if ?c then _ else _] => destruct c
         | |- context [match ?l with [] => _ | _ :: _ => _ end] => destruct l
         end; simpl; lia.
Qed.

(** The width never exceeds the length of the slice: the slice
    expressions [b[:size]] and [b[size:]] of the loop are always in
    range, so [firstn] and [skipn] model them exactly. *)
Lemma DecodeRune_size_le (p : list byte) :
  (snd (utf8.DecodeRune p) <= List.length p)%nat.
Proof.
  unfold utf8.DecodeRune.
  repeat match goal with
         | |- context [if ?c then _ else _] => destruct c
         | |- context [match ?l with [] => _ | _ :: _ => _ end] => destruct l
         end; simpl; lia.
Qed.

(** One iteration of the loop of [normalizeUTF8] (lines 41-45) on a
    non-empty [b]: [r, size := utf8.DecodeRune(b)], then the bytes kept
    ([loop_out]) and the slice left to decode ([loop_rest]). *)
Definition loop_out (b out : list byte) : list byte :=
  let (r, size) := utf8.DecodeRune b in
  if negb (r =? utf8.RuneError) then out ++ firstn size b else out.

Definition loop_rest (b : list byte) : list byte :=
  let (r, size) := utf8.DecodeRune b in
  skipn size b.

Lemma loop_rest_shorter (p0 : byte) (t : list byte) :
  (List.length (loop_rest (p0 :: t)) < List.length (p0 :: t))%nat.
Proof.
  unfold loop_rest.
  pose proof (DecodeRune_size_pos p0 t) as Hpos.
  destruct (utf8.DecodeRune (p0 :: t)) as [r size]. simpl in Hpos.
  destruct size as [|n]; [lia|].
  simpl. pose proof (length_skipn n t). lia.
Qed.

(** The loop of [normalizeUTF8] (lines 40-46): [b] is the part of the
    input still to decode, [out] the bytes kept so far. *)
Equations? normalize_loop (b out : list byte) : list byte by wf (List.length b) lt :=
  normalize_loop [] out := out;
  normalize_loop (p0 :: t) out :=
    normalize_loop (loop_rest (p0 :: t)) (loop_out (p0 :: t) out).
Proof.
  apply (loop_rest_shorter p0 t).
Qed.

(** [normalizeUTF8] returns valid UTF8 from potentially incorrectly
    encoded data from an untrusted process. *)
Definition normalizeUTF8 (b : list byte) : list byte :=
  if utf8.Valid b then b else normalize_loop b [].

(** *** The well-formed units of a byte sequence

    The reading of "the subsequence of B consisting of exactly B's
    well-formed units": scanning [b] from the left, a well-formed unit
    is a prefix of one to four bytes that [utf8.Valid] accepts (the
    encoding of one code point); a byte that starts no such prefix is
    ill-formed and is skipped on its own. *)

(** The width of the well-formed unit that starts [b], if any. *)
Definition unit_width (b : list byte) : option nat :=
  find (fun n => (n <=? List.length b)%nat && utf8.Valid (firstn n b))
       [1%nat; 2%nat; 3%nat; 4%nat].

Lemma unit_width_pos (b : list byte) (n : nat) :
  unit_width b = Some n -> (1 <= n)%nat.
Proof.
  unfold unit_width. intros H. apply find_some in H.
  destruct H as [Hin _]. simpl in Hin. lia.
Qed.

Definition units_rest (b : list byte) : list byte :=
  match unit_width b with
  | Some n => skipn n b
  | None => tl b
  end.

Lemma units_rest_shorter (p0 : byte) (t : list byte) :
  (List.length (units_rest (p0 :: t)) < List.length (p0 :: t))%nat.
Proof.
  unfold units_rest.
  destruct (unit_width (p0 :: t)) as [n|] eqn:E; [|simpl; lia].
  apply unit_width_pos in E. destruct n as [|n]; [lia|].
  simpl. pose proof (length_skipn n t). lia.
Qed.

Equations? well_formed_units (b : list byte) : list (list byte)
  by wf (List.length b) lt :=
  well_formed_units [] := [];
  well_formed_units (p0 :: t) :=
    match unit_width (p0 :: t) with
    | Some n => [firstn n (p0 :: t)]
    | None => []
    end ++ well_formed_units (units_rest (p0 :: t)).
Proof.
  apply (units_rest_shorter p0 t).
Qed.

(** Did [utf8.DecodeRune] fail on [b]?  It reports an ill-formed
    encoding as [(RuneError, 1)]. *)
Definition decode_error (b : list byte) : bool :=
  let (r, size) := utf8.DecodeRune b in
  (r =? utf8.RuneError) && (size =? 1)%nat.

(** Does the loop keep the unit [u]?  It keeps every unit whose rune is
    not [RuneError]. *)
Definition kept (u : list byte) : bool :=
  negb (fst (utf8.DecodeRune u) =? utf8.RuneError).

(** The encoding of U+FFFD, the replacement character. *)
Definition replacement_character : list byte := [xef; xbf; xbd].

Definition is_replacement_character (u : list byte) : bool :=
  if list_eq_dec Byte.byte_eq_dec u replacement_character then true else false.

(** ** [roundTime] *)

(** [time.Duration] is an [int64] count of nanoseconds; arithmetic on it
    wraps around silently. *)
Definition Duration := Z.

Definition MinInt64 : Z := - 2 ^ 63.
Definition MaxInt64 : Z := 2 ^ 63 - 1.

Definition wrap64 (z : Z) : Z := (z + 2 ^ 63) mod 2 ^ 64 - 2 ^ 63.

Definition int64_add (a b : Z) : Z := wrap64 (a + b).
Definition int64_mul (a b : Z) : Z := wrap64 (a * b).
(** Go's integer division truncates toward zero. *)
Definition int64_div (a b : Z) : Z := wrap64 (Z.quot a b).

Definition Nanosecond : Duration := 1.
Definition Microsecond : Duration := 1000 * Nanosecond.
Definition Millisecond : Duration := 1000 * Microsecond.
Definition Second : Duration := 1000 * Millisecond.

(** [roundTime] returns time rounded at a value that makes sense to
    display to the user. *)
Definition roundTime (t : Duration) : Duration :=
  if t <? Millisecond then
    (* Precise at 1ns. *)
    t
  else if t <? Second then
    (* Precise at 1µs. *)
    int64_mul (int64_div (int64_add t (Z.quot Microsecond 2)) Microsecond) Microsecond
  else
    (* Round at 1ms *)
    int64_mul (int64_div (int64_add t (Z.quot Millisecond 2)) Millisecond) Millisecond.

(** [r] is [d] rounded to the nearest multiple of [unit], a tie going
    away from zero. *)
Definition rounded_to (unit d r : Z) : Prop :=
  r mod unit = 0 /\
  2 * Z.abs (r - d) <= unit /\
  (2 * Z.abs (r - d) = unit -> Z.abs d < Z.abs r).

(** ** Effects

    The functions below log, write to the HTTP response, run a
    subprocess and use the [sync] package.  What they do to the outside
    world is recorded as the list of [action]s performed, in program
    order. *)

#[local] Open Scope string_scope.

Inductive action : Type :=
| Printf (format : string) (args : list string) (* [log.Printf] *)
| SetHeader (key value : string)                (* [w.Header().Set] *)
| WriteHeader (code : Z)                        (* [w.WriteHeader] *)
| Write (data : string)                         (* [w.Write] *)
| BodyClose                                     (* [r.Body.Close] *)
| ExecStart (argv : list string)  (* [c.CombinedOutput] starts the command *)
| ExecWait                        (* [c.CombinedOutput] returns *)
| GoListenAndServe (addr : string)              (* [go http.ListenAndServe] *)
| MuLock                                        (* [sync.Mutex.Lock] *)
| MuUnlock                                      (* [sync.Mutex.Unlock] *)
| WgAdd (delta : Z)                             (* [sync.WaitGroup.Add] *)
| WgDone                                        (* [sync.WaitGroup.Done] *)
| WgWait                                        (* [sync.WaitGroup.Wait] *)
| Fprintf_stderr (format : string) (args : list string).

(** A computation performs actions and then either returns a value or
    panics (a Go run-time panic such as a nil pointer dereference). *)
Inductive result (A : Type) : Type :=
| Returned (a : A)
| Panicked (msg : string).
Arguments Returned {A} a.
Arguments Panicked {A} msg.

Definition M (A : Type) : Type := list action * result A.

Definition ret {A : Type} (a : A) : M A := ([], Returned a).

Definition bind {A B : Type} (m : M A) (k : A -> M B) : M B :=
  match m with
  | (tr, Returned a) => let (tr', r) := k a in ((tr ++ tr')%list, r)
  | (tr, Panicked msg) => (tr, Panicked msg)
  end.

Definition act (a : action) : M unit := ([a], Returned tt).

Definition panic {A : Type} (msg : string) : M A := ([], Panicked msg).

(** [defer f; body]: the deferred action runs when [body] returns, and
    also when it panics. *)
Definition defer {A : Type} (a : action) (body : M A) : M A :=
  ((fst body ++ [a])%list, snd body).

(** [*p]: dereferencing a nil pointer panics. *)
Definition deref {A : Type} (p : option A) : M A :=
  match p with
  | Some a => ret a
  | None => panic "runtime error: invalid memory address or nil pointer dereference"
  end.

Notation "x <- m ;; k" := (bind m (fun x => k))
  (at level 61, m at next level, right associativity).
Notation "m ;;; k" := (bind m (fun _ => k))
  (at level 61, right associativity).

Definition trace {A : Type} (m : M A) : list action := fst m.

(** The line feed of Go's ["\n"]. *)
Definition nl : string := String (ascii_of_nat 10) EmptyString.

(** ** [pullRepo] *)

(** The error returned by [c.CombinedOutput()].  An [*exec.ExitError]
    carries the process state; [sys] is what
    [exiterr.Sys().(syscall.WaitStatus)] followed by
    [status.ExitStatus()] gives: [None] when the type assertion fails,
    [Some code] otherwise.  Any other error (the command could not be
    started, say) is an [OtherError].  [Error()] is the message. *)
Inductive exec_error : Type :=
| ExitError (msg : string) (sys : option Z)
| OtherError (msg : string).

Definition Error (e : exec_error) : string :=
  match e with
  | ExitError msg _ => msg
  | OtherError msg => msg
  end.

(** What running the command produced: the combined output, the error
    ([None] is [nil]) and the time it took.  *)
Record cmd_result : Type := {
  out : list byte;
  err : option exec_error;
  duration : Duration
}.

(** The text of [%d] for an [int]. *)
Definition itoa (n : Z) : string := NilZero.string_of_int (Z.to_int n).

Definition bytes (s : string) : list byte := list_byte_of_string s.

Definition cmd : list string := ["git"; "pull"; "--prune"; "--quiet"].

(** [strings.Join(cmd, " ")]. *)
Definition cmds : string := String.concat " " cmd.

(** The exit code that [pullRepo] reports (lines 75-86). *)
Definition exit_code (e : option exec_error) : Z :=
  match e with
  | None => 0
  | Some (ExitError _ (Some status)) => status
  | Some _ => -1
  end.

(** The output that [pullRepo] reports (lines 78-80), before it is
    normalized. *)
Definition reported_output (o : list byte) (e : option exec_error) : list byte :=
  match e with
  | None => o
  | Some e' =>
    if (List.length o =? 0)%nat
    then bytes ("<failure>" ++ nl ++ Error e' ++ nl)
    else o
  end.

Section PullRepo.

(** [time.Duration.String] of the Go standard library. *)
Variable Duration_String : Duration -> string.

(** [pullRepo] tries to pull a repository if possible.  The result of the
    command is given by [res]. *)
Definition pullRepo (res : cmd_result) : M (list byte * bool) :=
  act (Printf "- %s" [cmds]) ;;;
  act (ExecStart cmd) ;;;
  act ExecWait ;;;
  let exit := exit_code (err res) in
  let o := reported_output (out res) (err res) in
  ret ((bytes ("$ " ++ cmds ++ "  (exit:" ++ itoa exit ++ " in "
                    ++ Duration_String (roundTime (duration res)) ++ ")" ++ nl)
          ++ normalizeUTF8 o)%list,
       match err res with None => true | Some _ => false end).

End PullRepo.

(** ** Package [net/http] of the Go standard library: what the handler
    uses of it *)

Record Request : Type := {
  Method : string;
  RemoteAddr : string;
  Path : string;                       (* [r.URL.Path] *)
  Header : list (string * string);
  Body : list byte
}.

Definition StatusBadRequest : Z := 400.
Definition StatusUnauthorized : Z := 401.
Definition StatusNotFound : Z := 404.
Definition StatusMethodNotAllowed : Z := 405.

(** [http.Error(w, error, code)]. *)
Definition http_Error (error : string) (code : Z) : M unit :=
  act (SetHeader "Content-Type" "text/plain; charset=utf-8") ;;;
  act (SetHeader "X-Content-Type-Options" "nosniff") ;;;
  act (WriteHeader code) ;;;
  act (Write (error ++ nl)).

(** [http.NotFound(w, r)]. *)
Definition http_NotFound : M unit :=
  http_Error "404 page not found" StatusNotFound.

(** [io.WriteString(w, s)]. *)
Definition io_WriteString (s : string) : M unit := act (Write s).

(** The status line a client receives: that of the first [WriteHeader];
    a [Write] that comes before any [WriteHeader] sends 200. *)
Fixpoint response_status (tr : list action) : option Z :=
  match tr with
  | [] => None
  | WriteHeader code :: _ => Some code
  | Write _ :: _ => Some 200
  | _ :: tr' => response_status tr'
  end.

(** The response body: everything written, in order. *)
Fixpoint response_body (tr : list action) : string :=
  match tr with
  | [] => ""
  | Write data :: tr' => data ++ response_body tr'
  | _ :: tr' => response_body tr'
  end.

(** How many times the synchronization command was run. *)
Definition is_ExecStart (a : action) : bool :=
  match a with ExecStart _ => true | _ => false end.

Definition is_ExecWait (a : action) : bool :=
  match a with ExecWait => true | _ => false end.

Definition executions (tr : list action) : nat :=
  List.length (filter is_ExecStart tr).

(** ** Package [github] (google/go-github): the events the handler
    looks at

    The declarations are not part of this repository.  The handler
    dereferences [*event.Repo.FullName], [*event.Ref] and
    [*event.HeadCommit.ID] and compares [event.HeadCommit] with [nil]:
    these fields are pointers, which the JSON decoder leaves [nil] when
    the key is absent from the payload. *)

Record PushEventRepository : Type := { FullName : option string }.

Record PushEventCommit : Type := { ID : option string }.

Record PushEvent : Type := {
  Ref : option string;
  Repo : option PushEventRepository;
  HeadCommit : option PushEventCommit
}.

(** The value returned by [github.ParseWebHook] with a [nil] error: a
    [*github.PushEvent], a pointer to another event struct, of which
    only the type name is used, or the [nil] interface value, which the
    JSON decoder yields for the body [null]. *)
Inductive Event : Type :=
| EvPush (e : PushEvent)
| EvOther (type_name : string)
| EvNil.

(** ** The server *)

(** [server] is both the HTTP server and the task queue server.  [mu]
    is [true] when the mutex is locked; [wg] is the counter of the wait
    group. *)
Record server : Type := {
  WebHookSecret : string;
  mu : bool;      (* Set when a check is running *)
  wg : Z          (* Set for each pending task. *)
}.

(** What a handler reads from outside the request: the uptime
    [time.Since(start)] and the result of the command that [pullRepo]
    runs, if it runs it. *)
Record Env : Type := {
  uptime : Duration;
  pull : cmd_result
}.

Section Server.

(** [time.Duration.String]. *)
Variable Duration_String : Duration -> string.

(** [github.ValidatePayload(r, secretKey)]: the payload, or [None] when
    it returns an error. *)
Variable ValidatePayload : Request -> list byte -> option (list byte).

(** [github.WebHookType(r)]. *)
Variable WebHookType : Request -> string.

(** [github.ParseWebHook(messageType, payload)]: the event, or [None]
    when it returns an error. *)
Variable ParseWebHook : string -> list byte -> option Event.

(** Lines 139-149: the switch on the type of the event. *)
Definition handle_event (event : Event) (env : Env) : M unit :=
  match event with
  | EvPush event =>
    match HeadCommit event with
    | None =>
      repo <- deref (Repo event) ;;
      name <- deref (FullName repo) ;;
      ref <- deref (Ref event) ;;
      act (Printf "- Push %s %s <deleted>" [name; ref])
    | Some head =>
      repo <- deref (Repo event) ;;
      name <- deref (FullName repo) ;;
      ref <- deref (Ref event) ;;
      id <- deref (ID head) ;;
      act (Printf "- Push %s %s %s" [name; ref; id]) ;;;
      _ <- pullRepo Duration_String (pull env) ;;
      ret tt
    end
  | EvOther type_name =>
    act (Printf "- ignoring hook type %s" [type_name])
  | EvNil =>
    (* [reflect.TypeOf(event)] is [nil], and [Elem] is called on it *)
    type_name <- deref None ;;
    act (Printf "- ignoring hook type %s" [type_name])
  end.

(** [ServeHTTP] handles all HTTP requests and triggers a task if
    relevant.  A [return] in the middle of the Go function is the end
    of a branch here. *)
Definition ServeHTTP (s : server) (r : Request) (env : Env) : M unit :=
  act (Printf "%-4s %-21s %s" [Method r; RemoteAddr r; Path r]) ;;;
  defer BodyClose (
    (* The path must be the root path. *)
    if negb (Path r =? "") && negb (Path r =? "/") then
      act (Printf "- Unexpected path %s" [Path r]) ;;;
      http_NotFound
    else if Method r =? "HEAD" then
      act (WriteHeader 200)
    else if Method r =? "GET" then
      (* Return the uptime. *)
      io_WriteString (Duration_String (uptime env))
    else if negb (Method r =? "POST") then
      http_Error "Invalid method" StatusMethodNotAllowed ;;;
      act (Printf "- invalid method %s" [Method r])
    else
      match ValidatePayload r (bytes (WebHookSecret s)) with
      | None =>
        http_Error "Invalid secret" StatusUnauthorized ;;;
        act (Printf "- invalid secret" [])
      | Some payload =>
        let t := WebHookType r in
        if negb (t =? "ping") then
          match ParseWebHook t payload with
          | None =>
            http_Error "Invalid payload" StatusBadRequest ;;;
            act (Printf "- invalid payload" [])
          | Some event =>
            handle_event event env ;;;
            io_WriteString "{}"
          end
        else
          io_WriteString "{}"
      end).

End Server.

(** ** [mainImpl] and [main] *)

(** A Go [error] that is not [nil], by its message. *)
Definition error := string.

(** What arrives first on the channels of the watcher: an event on
    [w.Events], or a value on [w.Errors]. *)
Inductive WatchSignal : Type :=
| EventFired
| ErrorFired (e : option error).

(** What [mainImpl] obtains from the operating system.  A call that
    returns [(value, err)] is a [sum]: [inl value] when [err] is [nil]. *)
Record MainEnv : Type := {
  flags : option (Z * string);  (* [flag.Parse]: [-port] and [-secret];
                                   [None] when it ends the process *)
  help : bool;                  (* [-h] or [-help] was given *)
  Getwd : string + error;       (* [os.Getwd] *)
  Executable : string + error;  (* [osext.Executable] *)
  Listen : string + error;      (* [net.Listen]; the address bound *)
  NewWatcher : option error;    (* the error of [fsnotify.NewWatcher] *)
  WatcherAdd : option error;    (* the error of [w.Add(thisFile)] *)
  signal : WatchSignal
}.

(** How a call of [mainImpl] ends: it returns an error (or [nil]), it
    blocks for ever in [select {}], or [flag.Parse] ends the process.
    The command line is parsed with [flag.ExitOnError]: a flag that
    does not parse ends the process with status 2, and [-h] or [-help]
    ends it with status 0 (since Go 1.15). *)
Inductive main_outcome : Type :=
| MReturn (e : option error)
| MHang
| MExit (code : Z).

(** The text of [%v] for an [error]. *)
Definition error_text (e : option error) : string :=
  match e with
  | Some msg => msg
  | None => "<nil>"
  end.

(** Lines 184-203: the watcher, then the wait for outstanding tasks. *)
Definition watch_and_drain (env : MainEnv) : list action * main_outcome :=
  let (tr, e) :=
    match NewWatcher env with
    | Some e => ([Printf "Failed to initialize watcher: %v" [e]], Some e)
    | None =>
      match WatcherAdd env with
      | Some e => ([Printf "Failed to initialize watcher: %v" [e]], Some e)
      | None => ([], None)
      end
    end in
  match e with
  | None =>
    match signal env with
    | EventFired => ((tr ++ [WgWait])%list, MReturn None)
    | ErrorFired e' =>
      ((tr ++ [Printf "Waiting failure: %v" [error_text e']; WgWait])%list,
       MReturn e')
    end
  | Some _ =>
    (* Hang so the server actually run. *)
    (tr, MHang)
  end.

Definition mainImpl (env : MainEnv) : list action * main_outcome :=
  match flags env with
  | None => ([], MExit (if help env then 0 else 2))
  | Some (port, secret) =>
    match Getwd env with
    | inr e => ([], MReturn (Some e))
    | inl wd =>
      match Executable env with
      | inr e => ([], MReturn (Some e))
      | inl thisFile =>
        let tr1 := [Printf "Running in: %s" [wd];
                    Printf "Executable: %s" [thisFile]] in
        match Listen env with
        | inr e => (tr1, MReturn (Some e))
        | inl a =>
          let tr2 := [Printf "Listening on: %s" [a]; GoListenAndServe a] in
          let (tr3, o) := watch_and_drain env in
          ((tr1 ++ tr2 ++ tr3)%list, o)
        end
      end
    end
  end.

(** The server value that [mainImpl] creates (line 166). *)
Definition new_server (secret : string) : server :=
  {| WebHookSecret := secret; mu := false; wg := 0 |}.

(** How the process ends. *)
Inductive process_outcome : Type :=
| Exit (code : Z)
| Hang.

Definition main (env : MainEnv) : list action * process_outcome :=
  match mainImpl env with
  | (tr, MReturn (Some e)) =>
    ((tr ++ [Fprintf_stderr ("pullhook: %s." ++ nl) [e]])%list, Exit 1)
  | (tr, MReturn None) => (tr, Exit 0)
  | (tr, MHang) => (tr, Hang)
  | (tr, MExit code) => (tr, Exit code)
  end.

(** ** Handlers running concurrently

    [net/http] runs each request in a goroutine of its own; all of them,
    and [mainImpl], share the one [server] value.  A thread is the list
    of actions it still has to perform; the threads are interleaved
    action by action.  [Lock] is possible only when the mutex is free,
    [Wait] only when the counter of the wait group is zero. *)

Definition sync_step (a : action) (s : server) : option server :=
  match a with
  | MuLock =>
    if mu s then None
    else Some {| WebHookSecret := WebHookSecret s; mu := true; wg := wg s |}
  | MuUnlock =>
    Some {| WebHookSecret := WebHookSecret s; mu := false; wg := wg s |}
  | WgAdd delta =>
    Some {| WebHookSecret := WebHookSecret s; mu := mu s; wg := wg s + delta |}
  | WgDone =>
    Some {| WebHookSecret := WebHookSecret s; mu := mu s; wg := wg s - 1 |}
  | WgWait => if (wg s =? 0)%Z then Some s else None
  | _ => Some s
  end.

Record thread : Type := {
  done : list action;   (* performed so far, oldest first *)
  todo : list action    (* still to perform *)
}.

Record system : Type := {
  shared : server;
  threads : list thread
}.

Definition spawn (s : server) (programs : list (list action)) : system :=
  {| shared := s;
     threads := map (fun p => {| done := []; todo := p |}) programs |}.

Fixpoint set_nth {A : Type} (i : nat) (x : A) (l : list A) : list A :=
  match l, i with
  | [], _ => []
  | _ :: l', O => x :: l'
  | y :: l', S i' => y :: set_nth i' x l'
  end.

(** Thread [i] performs its next action. *)
Definition step (i : nat) (st : system) : option system :=
  match nth_error (threads st) i with
  | Some th =>
    match todo th with
    | a :: rest =>
      match sync_step a (shared st) with
      | Some s' =>
        Some {| shared := s';
                threads := set_nth i {| done := (done th ++ [a])%list;
                                        todo := rest |} (threads st) |}
      | None => None
      end
    | [] => None
    end
  | None => None
  end.

Fixpoint run (schedule : list nat) (st : system) : option system :=
  match schedule with
  | [] => Some st
  | i :: schedule' =>
    match step i st with
    | Some st' => run schedule' st'
    | None => None
    end
  end.

(** A thread is running the synchronization command when it has
    started it and [CombinedOutput] has not returned yet. *)
Definition in_pull (th : thread) : bool :=
  (List.length (filter is_ExecWait (done th))
   <? List.length (filter is_ExecStart (done th)))%nat.

Definition running_pulls (st : system) : nat :=
  List.length (filter in_pull (threads st)).

Definition is_wg_update (a : action) : bool :=
  match a with
  | WgAdd _ | WgDone => true
  | _ => false
  end.

Definition is_mu_update (a : action) : bool :=
  match a with
  | MuLock | MuUnlock => true
  | _ => false
  end.

(** An action that touches neither the wait group nor the mutex. *)
Definition quiet (a : action) : bool :=
  negb (is_wg_update a) && negb (is_mu_update a).

(** ** The vocabulary of the specification

    The specification describes a request by its classification and an
    event by a [WebhookEvent].  The definitions of this part follow the
    words of the specification (its data model and the rules of its
    request validator); they are what the code is compared with. *)

(** A push event carries the full name of the repository, the ref and
    an optional head-commit identifier, whose absence means a branch
    deletion.  (The ping event is recognised by its event-type header
    and never parsed.) *)
Inductive WebhookEvent : Type :=
| Push (repo ref : string) (commit : option string)
| Other.

Inductive Classification : Type :=
| NotFound
| Alive
| StatusQuery
| MethodRejected
| Unauthorized
| Ping
| BadPayload
| PushTrigger (repo ref commit : string)
| Ignored.

(** The [WebhookEvent] that a parsed event stands for.  A push struct
    that lacks the repository name or the ref, or whose head commit has
    no identifier, stands for none, and neither does the [nil] event. *)
Definition spec_event (ev : Event) : option WebhookEvent :=
  match ev with
  | EvNil => None
  | EvOther _ => Some Other
  | EvPush e =>
    match Repo e, Ref e with
    | Some {| FullName := Some name |}, Some ref =>
      match HeadCommit e with
      | None => Some (Push name ref None)
      | Some {| ID := Some id |} => Some (Push name ref (Some id))
      | Some {| ID := None |} => None
      end
    | _, _ => None
    end
  end.

Section Specification.

Variable Duration_String : Duration -> string.
Variable ValidatePayload : Request -> list byte -> option (list byte).
Variable WebHookType : Request -> string.
Variable ParseWebHook : string -> list byte -> option Event.

(** The rules of the request validator, the first applicable one
    deciding; the root path is ["/"] (the handler takes the empty path
    for it as well).  A parsed event that stands for no [WebhookEvent]
    is given no classification. *)
Definition classify (s : server) (r : Request) : option Classification :=
  if negb (Path r =? "/") then Some NotFound
  else if Method r =? "HEAD" then Some Alive
  else if Method r =? "GET" then Some StatusQuery
  else if negb (Method r =? "POST") then Some MethodRejected
  else
    match ValidatePayload r (bytes (WebHookSecret s)) with
    | None => Some Unauthorized
    | Some payload =>
      if WebHookType r =? "ping" then Some Ping
      else
        match ParseWebHook (WebHookType r) payload with
        | None => Some BadPayload
        | Some ev =>
          match spec_event ev with
          | Some (Push repo ref (Some commit)) =>
            Some (PushTrigger repo ref commit)
          | Some _ => Some Ignored
          | None => None
          end
        end
    end.

(** [r] is a POST to the root path with a correct signature whose body
    parses as the event [ev]. *)
Definition delivers (s : server) (r : Request) (ev : Event) : Prop :=
  Path r = "/" /\
  Method r = "POST" /\
  WebHookType r <> "ping" /\
  exists payload,
    ValidatePayload r (bytes (WebHookSecret s)) = Some payload /\
    ParseWebHook (WebHookType r) payload = Some ev.

(** When a request makes the handler run the command: it is a POST to
    the root path (the empty path counts) with a correct signature, its
    event type is not ["ping"], and its body parses as a push event that
    carries the repository name, the ref and a head commit with its
    identifier. *)
Definition pull_trigger (s : server) (r : Request) : Prop :=
  (Path r = "" \/ Path r = "/") /\
  Method r = "POST" /\
  WebHookType r <> "ping" /\
  exists payload ev repo ref commit,
    ValidatePayload r (bytes (WebHookSecret s)) = Some payload /\
    ParseWebHook (WebHookType r) payload = Some ev /\
    spec_event ev = Some (Push repo ref (Some commit)).

End Specification.

(** ** A stand-in for the libraries

    To run the model on concrete requests the functions of the
    libraries are replaced by simple stand-ins: the signature is the
    secret itself, the event type is the value of its header, and a few
    payloads are understood. *)

Fixpoint header_get (key : string) (h : list (string * string)) : string :=
  match h with
  | [] => ""
  | (k, v) :: h' => if k =? key then v else header_get key h'
  end.

Definition sample_Duration_String (d : Duration) : string := itoa d ++ "ns".

Definition sample_ValidatePayload (r : Request) (secret : list byte)
  : option (list byte) :=
  if list_eq_dec Byte.byte_eq_dec
       (bytes (header_get "X-Hub-Signature" (Header r))) secret
  then Some (Body r) else None.

Definition sample_WebHookType (r : Request) : string :=
  header_get "X-GitHub-Event" (Header r).

Definition sample_push (commit : option string) : Event :=
  EvPush {| Ref := Some "refs/heads/master";
            Repo := Some {| FullName := Some "maruel/pullhook" |};
            HeadCommit :=
              match commit with
              | Some id => Some {| ID := Some id |}
              | None => None
              end |}.

Definition sample_ParseWebHook (messageType : string) (payload : list byte)
  : option Event :=
  if messageType =? "push" then
    if list_eq_dec Byte.byte_eq_dec payload (bytes "commit")
    then Some (sample_push (Some "0123abcd"))
    else if list_eq_dec Byte.byte_eq_dec payload (bytes "deleted")
    then Some (sample_push None)
    else if list_eq_dec Byte.byte_eq_dec payload (bytes "null")
    then Some EvNil
    else if list_eq_dec Byte.byte_eq_dec payload (bytes "noref")
    then Some (EvPush {| Ref := None;
                         Repo := Some {| FullName := Some "maruel/pullhook" |};
                         HeadCommit := Some {| ID := Some "0123abcd" |} |})
    else None
  else if messageType =? "issues" then Some (EvOther "IssuesEvent")
  else None.

Definition sample_server : server := new_server "s3cret".

Definition sample_request (method path event : string) (body : string)
  : Request :=
  {| Method := method;
     RemoteAddr := "192.0.2.1:4711";
     Path := path;
     Header := [("X-Hub-Signature", "s3cret"); ("X-GitHub-Event", event)];
     Body := bytes body |}.

Definition sample_env : Env :=
  {| uptime := 1500000000;
     pull := {| out := bytes "Already up-to-date."; err := None;
                duration := 1500400 |} |}.

Definition sample_main_env : MainEnv :=
  {| flags := Some (8080, "s3cret");
     help := false;
     Getwd := inl "/srv/checkout";
     Executable := inl "/usr/local/bin/pullhook";
     Listen := inl "[::]:8080";
     NewWatcher := None;
     WatcherAdd := None;
     signal := EventFired |}.

Definition sample_ServeHTTP : server -> Request -> Env -> M unit :=
  ServeHTTP sample_Duration_String sample_ValidatePayload
            sample_WebHookType sample_ParseWebHook.

Definition sample_classify : server -> Request -> option Classification :=
  classify sample_ValidatePayload sample_WebHookType sample_ParseWebHook.

Definition push_request : Request := sample_request "POST" "/" "push" "commit".

Definition delete_request : Request := sample_request "POST" "/" "push" "deleted".

Definition noref_request : Request := sample_request "POST" "/" "push" "noref".

Definition unsigned_request : Request :=
  {| Method := "POST";
     RemoteAddr := "192.0.2.1:4711";
     Path := "/";
     Header := [("X-Hub-Signature", "guess"); ("X-GitHub-Event", "push")];
     Body := bytes "commit" |}.

Definition unwatched_main_env : MainEnv :=
  {| flags := Some (8080%Z, "s3cret");
     help := false;
     Getwd := inl "/srv/checkout";
     Executable := inl "/usr/local/bin/pullhook";
     Listen := inl "[::]:8080";
     NewWatcher := None;
     WatcherAdd := Some "no space left on device";
     signal := EventFired |}.

(** * Properties *)

#[local] Open Scope list_scope.
#[local] Open Scope Z_scope.

(** ** [normalizeUTF8] *)

(** *** Facts about [normalizeUTF8] *)

(** The value of [first] determines the class of the leading byte. *)
Lemma first_cases (b : Z) :
  (utf8.first b = utf8.as_ /\ b < 0x80) \/
  (utf8.first b = utf8.xx /\ 0x80 <= b) \/
  (utf8.first b = utf8.s1 /\ 0x80 <= b) \/
  (utf8.first b = utf8.s2 /\ 0x80 <= b) \/
  (utf8.first b = utf8.s3 /\ 0x80 <= b) \/
  (utf8.first b = utf8.s4 /\ 0x80 <= b) \/
  (utf8.first b = utf8.s5 /\ 0x80 <= b) \/
  (utf8.first b = utf8.s6 /\ 0x80 <= b) \/
  (utf8.first b = utf8.s7 /\ 0x80 <= b).
Proof.
  unfold utf8.first.
  repeat match goal with
         | |- context [?x <? ?y] => destruct (Z.ltb_spec x y)
         | |- context [?x =? ?y] => destruct (Z.eqb_spec x y)
         end; intuition lia.
Qed.

(** The bytes kept by the loop are appended to what was kept before. *)
Lemma loop_out_app (b out : list byte) :
  loop_out b out = out ++ loop_out b [].
Proof.
  unfold loop_out. destruct (utf8.DecodeRune b) as [r size].
  destruct (negb (r =? utf8.RuneError)); simpl; [reflexivity|].
  now rewrite app_nil_r.
Qed.

Lemma normalize_loop_app (b out : list byte) :
  normalize_loop b out = out ++ normalize_loop b [].
Proof.
  remember (List.length b) as n eqn:Hn.
  revert b out Hn.
  induction n as [n IH] using lt_wf_ind; intros b out Hn.
  destruct b as [|p0 t]; simp normalize_loop.
  - now rewrite app_nil_r.
  - pose proof (loop_rest_shorter p0 t) as Hlt.
    rewrite (IH _ ltac:(subst n; exact Hlt) _ (loop_out (p0 :: t) out) eq_refl).
    rewrite (IH _ ltac:(subst n; exact Hlt) _ (loop_out (p0 :: t) []) eq_refl).
    rewrite (loop_out_app (p0 :: t) out), app_assoc. reflexivity.
Qed.

(** Unfolding of the loop, one decoded unit at a time. *)
Lemma normalize_loop_cons (p0 : byte) (t : list byte) :
  normalize_loop (p0 :: t) [] =
  loop_out (p0 :: t) [] ++ normalize_loop (loop_rest (p0 :: t)) [].
Proof.
  simp normalize_loop. apply normalize_loop_app.
Qed.

Ltac first_class b :=
  let H := fresh "Hfirst" in
  let Hb := fresh "Hb" in
  destruct (first_cases (utf8.bz b))
    as [[H Hb]|[[H Hb]|[[H Hb]|[[H Hb]|[[H Hb]|[[H Hb]|[[H Hb]|[[H Hb]|[H Hb]]]]]]]]].

Ltac utf8_cbn :=
  cbn -[utf8.rune2 utf8.rune3 utf8.rune4 Z.of_nat utf8.Valid utf8.outside
        firstn skipn Z.ltb Z.eqb List.length].

Ltac split_decode :=
  repeat match goal with
         | |- context [if Z.of_nat ?n <? ?k then _ else _] =>
             destruct (Z.ltb_spec (Z.of_nat n) k)
         | |- context [if utf8.outside ?c ?lo ?hi then _ else _] =>
             let E := fresh "Hout" in destruct (utf8.outside c lo hi) eqn:E
         | |- context [match ?l with [] => _ | _ :: _ => _ end] =>
             is_var l; destruct l
         end.

(** One iteration of the loop of [utf8.Valid]. *)
Lemma Valid_eq (p0 : byte) (t0 : list byte) :
  utf8.Valid (p0 :: t0) =
  if utf8.bz p0 <? utf8.RuneSelf then utf8.Valid t0
  else
    let x := utf8.first (utf8.bz p0) in
    if x =? utf8.xx then false
    else
      let size := Z.land x 7 in
      if Z.of_nat (List.length (p0 :: t0)) <? size then false
      else
        let accept := utf8.acceptRanges (Z.shiftr x 4) in
        match t0 with
        | [] => false
        | c1 :: t1 =>
          if utf8.outside (utf8.bz c1) (fst accept) (snd accept) then false
          else if size =? 2 then utf8.Valid t1
          else
            match t1 with
            | [] => false
            | c2 :: t2 =>
              if utf8.outside (utf8.bz c2) utf8.locb utf8.hicb then false
              else if size =? 3 then utf8.Valid t2
              else
                match t2 with
                | [] => false
                | c3 :: t3 =>
                  if utf8.outside (utf8.bz c3) utf8.locb utf8.hicb then false
                  else utf8.Valid t3
                end
            end
        end.
Proof. reflexivity. Qed.

Lemma not_RuneSelf (b : Z) : 0x80 <= b -> (b <? utf8.RuneSelf) = false.
Proof. intros H. apply Z.ltb_ge. exact H. Qed.

Lemma is_RuneSelf (b : Z) : b < 0x80 -> (b <? utf8.RuneSelf) = true.
Proof. intros H. apply Z.ltb_lt. exact H. Qed.

Ltac length_checks :=
  repeat match goal with
         | |- context [Z.of_nat ?n <? ?k] =>
             let E := fresh "Hlen" in
             destruct (Z.ltb_spec (Z.of_nat n) k) as [E|E];
             [cbn [List.length] in E; lia|]
         end.

(** A unit kept by the loop is a well-formed encoding: it can be put in
    front of any slice without changing whether that slice is valid. *)
Lemma Valid_kept_unit (p0 : byte) (t rest : list byte) :
  utf8.Valid (loop_out (p0 :: t) [] ++ rest) = utf8.Valid rest.
Proof.
  unfold loop_out, utf8.DecodeRune.
  first_class p0; rewrite Hfirst; utf8_cbn; split_decode; utf8_cbn;
    try reflexivity;
    match goal with
    | |- context [negb ?c] => destruct (negb c); [|reflexivity]
    end.
  all: cbn [firstn app]; rewrite Valid_eq, ?Hfirst.
  all: first [rewrite (is_RuneSelf _ Hb) | rewrite (not_RuneSelf _ Hb)];
    try reflexivity.
  all: utf8_cbn; length_checks.
  all: utf8_cbn; rewrite ?Hout, ?Hout0, ?Hout1; reflexivity.
Qed.

Lemma normalize_loop_Valid (b : list byte) :
  utf8.Valid (normalize_loop b []) = true.
Proof.
  remember (List.length b) as n eqn:Hn.
  revert b Hn.
  induction n as [n IH] using lt_wf_ind; intros b Hn.
  destruct b as [|p0 t].
  - reflexivity.
  - rewrite normalize_loop_cons, Valid_kept_unit.
    apply (IH (List.length (loop_rest (p0 :: t)))); [|reflexivity].
    subst n. apply loop_rest_shorter.
Qed.

(** Whatever the input, the result of [normalizeUTF8] is valid UTF-8. *)
Lemma normalizeUTF8_Valid (b : list byte) :
  utf8.Valid (normalizeUTF8 b) = true.
Proof.
  unfold normalizeUTF8.
  destruct (utf8.Valid b) eqn:E; [exact E | apply normalize_loop_Valid].
Qed.

(** X19.  Normalizing twice is the same as normalizing once. *)
Lemma normalizeUTF8_idempotent (b : list byte) :
  normalizeUTF8 (normalizeUTF8 b) = normalizeUTF8 b.
Proof.
  unfold normalizeUTF8 at 1. now rewrite normalizeUTF8_Valid.
Qed.

(** *** [normalizeUTF8] and the well-formed units *)

Lemma ascii_not_RuneError (b : Z) : b < 128 -> (b =? utf8.RuneError) = false.
Proof. intros H. apply Z.eqb_neq. unfold utf8.RuneError. lia. Qed.

Lemma unit_width_decode (p0 : byte) (t : list byte) :
  unit_width (p0 :: t) =
  if decode_error (p0 :: t) then None
  else Some (snd (utf8.DecodeRune (p0 :: t))).
Proof.
  unfold unit_width, decode_error, utf8.DecodeRune.
  destruct t as [|b1 [|b2 [|b3 t3]]].
  all: first_class p0; rewrite Hfirst.
  all: cbn [find firstn List.length Nat.leb andb].
  all: rewrite !Valid_eq, ?Hfirst.
  all: first [rewrite !(is_RuneSelf _ Hb) | rewrite !(not_RuneSelf _ Hb)].
  all: cbn -[utf8.rune2 utf8.rune3 utf8.rune4 utf8.outside Z.of_nat].
  all: try rewrite (ascii_not_RuneError _ Hb).
  all: try reflexivity.
  all: repeat match goal with
         | |- context [Z.of_nat ?n <? ?k] =>
             let E := fresh "Hlen" in
             destruct (Z.ltb_spec (Z.of_nat n) k) as [E|E]; [lia|]
         end.
  all: repeat match goal with
         | |- context [if utf8.outside ?c ?lo ?hi then _ else _] =>
             destruct (utf8.outside c lo hi)
         end.
  all: cbn -[utf8.rune2 utf8.rune3 utf8.rune4 utf8.outside Z.of_nat].
  all: rewrite ?andb_false_r.
  all: try reflexivity.
Qed.

Ltac decode_cases p0 t :=
  unfold decode_error, utf8.DecodeRune;
  destruct t as [|? [|? [|? ?]]];
  first_class p0;
  match goal with H : utf8.first _ = _ |- _ => rewrite ?H end.

(** A unit that decodes without error decodes to the same rune when
    it stands alone. *)
Lemma DecodeRune_unit (p0 : byte) (t : list byte) :
  decode_error (p0 :: t) = false ->
  utf8.DecodeRune (firstn (snd (utf8.DecodeRune (p0 :: t))) (p0 :: t)) =
  utf8.DecodeRune (p0 :: t).
Proof.
  decode_cases p0 t.
  all: cbn -[utf8.rune2 utf8.rune3 utf8.rune4 utf8.outside Z.of_nat firstn].
  all: try (intros _; cbn [firstn]; unfold utf8.DecodeRune; rewrite Hfirst;
            reflexivity).
  all: try discriminate.
  all: repeat match goal with
         | |- context [Z.of_nat ?n <? ?k] =>
             let E := fresh "Hlen" in
             destruct (Z.ltb_spec (Z.of_nat n) k) as [E|E]; [lia|]
         end.
  all: repeat match goal with
         | |- context [if utf8.outside ?c ?lo ?hi then _ else _] =>
             let E := fresh "Hout" in destruct (utf8.outside c lo hi) eqn:E
         end.
  all: cbn -[utf8.rune2 utf8.rune3 utf8.rune4 utf8.outside Z.of_nat firstn].
  all: try discriminate.
  all: intros _; cbn [firstn]; unfold utf8.DecodeRune; rewrite Hfirst.
  all: cbn -[utf8.rune2 utf8.rune3 utf8.rune4 utf8.outside].
  all: rewrite ?Hout, ?Hout0, ?Hout1; reflexivity.
Qed.

(** [utf8.Valid] in terms of [utf8.DecodeRune]: a slice is valid when
    its first unit decodes without error and the rest is valid. *)
Lemma Valid_decode (p0 : byte) (t : list byte) :
  utf8.Valid (p0 :: t) =
  if decode_error (p0 :: t) then false
  else utf8.Valid (skipn (snd (utf8.DecodeRune (p0 :: t))) (p0 :: t)).
Proof.
  rewrite Valid_eq.
  decode_cases p0 t.
  all: first [rewrite !(is_RuneSelf _ Hb) | rewrite !(not_RuneSelf _ Hb)].
  all: cbn -[utf8.rune2 utf8.rune3 utf8.rune4 utf8.outside Z.of_nat utf8.Valid].
  all: try rewrite (ascii_not_RuneError _ Hb).
  all: try reflexivity.
  all: repeat match goal with
         | |- context [Z.of_nat ?n <? ?k] =>
             let E := fresh "Hlen" in
             destruct (Z.ltb_spec (Z.of_nat n) k) as [E|E];
             [cbn [List.length] in E; lia|]
         end.
  all: repeat match goal with
         | |- context [if utf8.outside ?c ?lo ?hi then _ else _] =>
             destruct (utf8.outside c lo hi)
         end.
  all: cbn -[utf8.rune2 utf8.rune3 utf8.rune4 utf8.outside Z.of_nat utf8.Valid].
  all: rewrite ?andb_false_r.
  all: try reflexivity.
Qed.

Lemma well_formed_units_cons (p0 : byte) (t : list byte) :
  well_formed_units (p0 :: t) =
  (match unit_width (p0 :: t) with
   | Some n => [firstn n (p0 :: t)]
   | None => []
   end ++ well_formed_units (units_rest (p0 :: t)))%list.
Proof. simp well_formed_units. reflexivity. Qed.

(** The loop of [normalizeUTF8] keeps, in order, the well-formed units
    of its input whose rune is not [RuneError]. *)
Lemma normalize_loop_units (b : list byte) :
  normalize_loop b [] = List.concat (filter kept (well_formed_units b)).
Proof.
  remember (List.length b) as n eqn:Hn.
  revert b Hn.
  induction n as [n IH] using lt_wf_ind; intros b Hn.
  destruct b as [|p0 t]; [reflexivity|].
  rewrite normalize_loop_cons, well_formed_units_cons.
  rewrite filter_app, concat_app.
  pose proof (loop_rest_shorter p0 t) as Hlt.
  rewrite (IH _ ltac:(subst n; exact Hlt) (loop_rest (p0 :: t)) eq_refl).
  assert (Hrest : units_rest (p0 :: t) = loop_rest (p0 :: t)
                  /\ List.concat
                       (filter kept
                          match unit_width (p0 :: t) with
                          | Some n => [firstn n (p0 :: t)]
                          | None => []
                          end) = loop_out (p0 :: t) []).
  { unfold units_rest, loop_rest, loop_out.
    rewrite unit_width_decode.
    pose proof (DecodeRune_unit p0 t) as Hunit.
    unfold decode_error in *.
    destruct (utf8.DecodeRune (p0 :: t)) as [r size] eqn:E.
    cbn [snd fst] in *.
    destruct ((r =? utf8.RuneError) && (size =? 1)%nat) eqn:Herr.
    - apply andb_true_iff in Herr. destruct Herr as [Hr Hsize].
      apply Nat.eqb_eq in Hsize. subst size. rewrite Hr. split; reflexivity.
    - split; [reflexivity|].
      cbn [filter]. unfold kept. rewrite (Hunit eq_refl). cbn [fst].
      destruct (negb (r =? utf8.RuneError)); cbn;
        [now rewrite app_nil_r | reflexivity]. }
  destruct Hrest as [-> ->]. reflexivity.
Qed.

(** A valid slice is the concatenation of its well-formed units. *)
Lemma Valid_units (b : list byte) :
  utf8.Valid b = true -> List.concat (well_formed_units b) = b.
Proof.
  remember (List.length b) as n eqn:Hn.
  revert b Hn.
  induction n as [n IH] using lt_wf_ind; intros b Hn Hvalid.
  destruct b as [|p0 t]; [reflexivity|].
  rewrite well_formed_units_cons, concat_app.
  rewrite Valid_decode in Hvalid.
  pose proof (units_rest_shorter p0 t) as Hlt.
  unfold units_rest in *. rewrite unit_width_decode in *.
  destruct (decode_error (p0 :: t)); [discriminate|].
  rewrite (IH _ ltac:(subst n; exact Hlt) _ eq_refl Hvalid).
  cbn [List.concat]. rewrite app_nil_r. apply firstn_skipn.
Qed.

(** [normalizeUTF8] returns the well-formed units of its input, except
    that from an input that is not valid as a whole it also drops the
    well-formed units that encode U+FFFD. *)
Lemma normalizeUTF8_units (b : list byte) :
  normalizeUTF8 b =
  if utf8.Valid b then List.concat (well_formed_units b)
  else List.concat (filter kept (well_formed_units b)).
Proof.
  unfold normalizeUTF8. destruct (utf8.Valid b) eqn:E.
  - symmetry. apply Valid_units. exact E.
  - apply normalize_loop_units.
Qed.

(** On an input none of whose well-formed units encodes U+FFFD,
    [normalizeUTF8] returns exactly the well-formed units, in order. *)
Lemma normalizeUTF8_preserves_units (b : list byte) :
  forallb kept (well_formed_units b) = true ->
  normalizeUTF8 b = List.concat (well_formed_units b).
Proof.
  intros H. rewrite normalizeUTF8_units.
  destruct (utf8.Valid b); [reflexivity|].
  f_equal. apply forallb_filter_id. exact H.
Qed.

(** *** The units that encode U+FFFD *)

Lemma land_shiftl_small (a b k : Z) :
  0 <= k -> 0 <= b < 2 ^ k -> Z.land (Z.shiftl a k) b = 0.
Proof.
  intros Hk Hb.
  rewrite <- (Z.mod_small b (2 ^ k)) by lia.
  rewrite <- Z.land_ones by lia.
  rewrite (Z.land_comm b (Z.ones k)), Z.land_assoc, Z.land_ones by lia.
  rewrite Z.shiftl_mul_pow2 by lia.
  rewrite Z.mod_mul by lia. apply Z.land_0_l.
Qed.

Lemma lor_shiftl (a b k : Z) :
  0 <= k -> 0 <= b < 2 ^ k -> Z.lor (Z.shiftl a k) b = a * 2 ^ k + b.
Proof.
  intros Hk Hb.
  pose proof (Z.add_lor_land (Z.shiftl a k) b) as H.
  rewrite land_shiftl_small, Z.shiftl_mul_pow2 in H by lia.
  rewrite Z.shiftl_mul_pow2 by lia. lia.
Qed.

Lemma rune2_eq (p0 b1 : Z) :
  utf8.rune2 p0 b1 = (p0 mod 32) * 64 + b1 mod 64.
Proof.
  unfold utf8.rune2, utf8.mask2, utf8.maskx.
  change 0x1F with (Z.ones 5). change 0x3F with (Z.ones 6).
  rewrite !Z.land_ones by lia.
  pose proof (Z.mod_pos_bound b1 (2 ^ 6) ltac:(lia)).
  rewrite lor_shiftl by lia. reflexivity.
Qed.

Lemma rune3_eq (p0 b1 b2 : Z) :
  utf8.rune3 p0 b1 b2 = (p0 mod 16) * 4096 + (b1 mod 64) * 64 + b2 mod 64.
Proof.
  unfold utf8.rune3, utf8.mask3, utf8.maskx.
  change 0x0F with (Z.ones 4). change 0x3F with (Z.ones 6).
  rewrite !Z.land_ones by lia.
  pose proof (Z.mod_pos_bound p0 (2 ^ 4) ltac:(lia)).
  pose proof (Z.mod_pos_bound b1 (2 ^ 6) ltac:(lia)).
  pose proof (Z.mod_pos_bound b2 (2 ^ 6) ltac:(lia)).
  replace (Z.shiftl (p0 mod 2 ^ 4) 12)
    with (Z.shiftl (Z.shiftl (p0 mod 2 ^ 4) 6) 6)
    by (rewrite Z.shiftl_shiftl by lia; reflexivity).
  rewrite <- Z.shiftl_lor.
  rewrite (lor_shiftl (p0 mod 2 ^ 4) (b1 mod 2 ^ 6) 6) by lia.
  rewrite lor_shiftl by lia.
  change (2 ^ 6) with 64. change (2 ^ 4) with 16. lia.
Qed.

Lemma rune4_eq (p0 b1 b2 b3 : Z) :
  utf8.rune4 p0 b1 b2 b3 =
  (p0 mod 8) * 262144 + (b1 mod 64) * 4096 + (b2 mod 64) * 64 + b3 mod 64.
Proof.
  unfold utf8.rune4, utf8.mask4, utf8.maskx.
  change 0x07 with (Z.ones 3). change 0x3F with (Z.ones 6).
  rewrite !Z.land_ones by lia.
  pose proof (Z.mod_pos_bound p0 (2 ^ 3) ltac:(lia)).
  pose proof (Z.mod_pos_bound b1 (2 ^ 6) ltac:(lia)).
  pose proof (Z.mod_pos_bound b2 (2 ^ 6) ltac:(lia)).
  pose proof (Z.mod_pos_bound b3 (2 ^ 6) ltac:(lia)).
  replace (Z.shiftl (p0 mod 2 ^ 3) 18)
    with (Z.shiftl (Z.shiftl (Z.shiftl (p0 mod 2 ^ 3) 6) 6) 6)
    by (rewrite !Z.shiftl_shiftl by lia; reflexivity).
  replace (Z.shiftl (b1 mod 2 ^ 6) 12)
    with (Z.shiftl (Z.shiftl (b1 mod 2 ^ 6) 6) 6)
    by (rewrite !Z.shiftl_shiftl by lia; reflexivity).
  rewrite <- !Z.shiftl_lor.
  rewrite (lor_shiftl (p0 mod 2 ^ 3) (b1 mod 2 ^ 6) 6) by lia.
  rewrite (lor_shiftl _ (b2 mod 2 ^ 6) 6) by (change (2 ^ 6) with 64 in *; lia).
  rewrite lor_shiftl by lia.
  change (2 ^ 6) with 64. change (2 ^ 3) with 8. lia.
Qed.

Lemma bz_inj (a b : byte) : utf8.bz a = utf8.bz b -> a = b.
Proof.
  unfold utf8.bz. intros H. apply N2Z.inj in H.
  pose proof (Byte.of_to_N a) as Ha. pose proof (Byte.of_to_N b) as Hb'.
  rewrite H in Ha. rewrite Ha in Hb'. now inversion Hb'.
Qed.

(** The bytes that [first] sends to each of its classes. *)
Lemma first_range (b : Z) :
  (utf8.first b = utf8.s1 -> 0xC2 <= b < 0xE0) /\
  (utf8.first b = utf8.s2 -> b = 0xE0) /\
  (utf8.first b = utf8.s3 -> 0xE1 <= b < 0xF0) /\
  (utf8.first b = utf8.s4 -> b = 0xED) /\
  (utf8.first b = utf8.s5 -> b = 0xF0) /\
  (utf8.first b = utf8.s6 -> 0xF1 <= b < 0xF4) /\
  (utf8.first b = utf8.s7 -> b = 0xF4).
Proof.
  unfold utf8.first.
  repeat match goal with
         | |- context [?x <? ?y] => destruct (Z.ltb_spec x y)
         | |- context [?x =? ?y] => destruct (Z.eqb_spec x y)
         end.
  all: repeat match goal with |- _ /\ _ => split end; intros Hclass;
    try (exfalso; vm_compute in Hclass; discriminate Hclass); lia.
Qed.

Lemma outside_false (c lo hi : Z) :
  utf8.outside c lo hi = false -> lo <= c <= hi.
Proof.
  unfold utf8.outside. intros H. apply orb_false_iff in H.
  destruct H as [H1 H2]. apply Z.ltb_ge in H1, H2. lia.
Qed.

(** A well-formed unit whose rune is [RuneError] is the encoding
    EF BF BD of U+FFFD. *)
Lemma RuneError_unit (p0 : byte) (t : list byte) :
  decode_error (p0 :: t) = false ->
  fst (utf8.DecodeRune (p0 :: t)) = utf8.RuneError ->
  firstn (snd (utf8.DecodeRune (p0 :: t))) (p0 :: t) = [xef; xbf; xbd].
Proof.
  pose proof (first_range (utf8.bz p0)) as Hrange.
  decode_cases p0 t.
  all: cbn -[utf8.rune2 utf8.rune3 utf8.rune4 utf8.outside Z.of_nat firstn].
  all: try discriminate.
  all: try rewrite (ascii_not_RuneError _ Hb); try discriminate.
  all: repeat match goal with
         | |- context [Z.of_nat ?n <? ?k] =>
             let E := fresh "Hlen" in
             destruct (Z.ltb_spec (Z.of_nat n) k) as [E|E]; [lia|]
         end.
  all: repeat match goal with
         | |- context [if utf8.outside ?c ?lo ?hi then _ else _] =>
             let E := fresh "Hout" in
             destruct (utf8.outside c lo hi) eqn:E;
             [|apply outside_false in E]
         end.
  all: cbn -[utf8.rune2 utf8.rune3 utf8.rune4 utf8.outside Z.of_nat firstn].
  all: try discriminate.
  all: intros _ Hr; unfold utf8.RuneError in Hr.
  all: try rewrite rune2_eq in Hr; try rewrite rune3_eq in Hr;
    try rewrite rune4_eq in Hr.
  all: destruct Hrange as (R1 & R2 & R3 & R4 & R5 & R6 & R7).
  all: try specialize (R1 Hfirst); try specialize (R2 Hfirst);
    try specialize (R3 Hfirst); try specialize (R4 Hfirst);
    try specialize (R5 Hfirst); try specialize (R6 Hfirst);
    try specialize (R7 Hfirst).
  all: unfold utf8.locb, utf8.hicb in *.
  all: clear Hfirst.
  all: try (exfalso; Z.div_mod_to_equations; lia).
  all: cbn [firstn].
  all: match goal with
       | |- [?a; ?b; ?c] = _ =>
           assert (Hbytes : utf8.bz a = 0xEF /\ utf8.bz b = 0xBF
                            /\ utf8.bz c = 0xBD)
             by (Z.div_mod_to_equations; lia);
           destruct Hbytes as (Ha & Hb' & Hc);
           apply (bz_inj a xef) in Ha; apply (bz_inj b xbf) in Hb';
           apply (bz_inj c xbd) in Hc; subst; reflexivity
       end.
Qed.

(** Every well-formed unit decodes, without error, to its own width. *)
Lemma well_formed_units_decode (b u : list byte) :
  In u (well_formed_units b) ->
  decode_error u = false /\ firstn (snd (utf8.DecodeRune u)) u = u /\ u <> [].
Proof.
  remember (List.length b) as n eqn:Hn.
  revert b Hn.
  induction n as [n IH] using lt_wf_ind; intros b Hn Hin.
  destruct b as [|p0 t]; [contradiction|].
  rewrite well_formed_units_cons in Hin.
  apply in_app_or in Hin. destruct Hin as [Hin|Hin].
  - rewrite unit_width_decode in Hin.
    destruct (decode_error (p0 :: t)) eqn:Herr; [contradiction|].
    destruct Hin as [<-|[]].
    pose proof (DecodeRune_unit p0 t Herr) as Hunit.
    pose proof (DecodeRune_size_pos p0 t) as Hpos.
    split; [|split].
    + unfold decode_error in *. rewrite Hunit. exact Herr.
    + rewrite Hunit, firstn_firstn. f_equal. lia.
    + destruct (snd (utf8.DecodeRune (p0 :: t))); [lia | discriminate].
  - apply (IH (List.length (units_rest (p0 :: t)))
              ltac:(subst n; apply units_rest_shorter) _ eq_refl Hin).
Qed.

(** The well-formed units that the loop drops are the encodings of
    U+FFFD, and only they. *)
Lemma kept_units (b u : list byte) :
  In u (well_formed_units b) ->
  kept u = negb (is_replacement_character u).
Proof.
  intros Hin. apply well_formed_units_decode in Hin.
  destruct Hin as (Herr & Hfull & Hne).
  unfold is_replacement_character.
  destruct (list_eq_dec Byte.byte_eq_dec u replacement_character) as [->|Hneq].
  - reflexivity.
  - unfold kept. cbn [negb].
    destruct (Z.eqb_spec (fst (utf8.DecodeRune u)) utf8.RuneError) as [Hr|Hr];
      [|reflexivity].
    exfalso. apply Hneq.
    destruct u as [|p0 t]; [contradiction|].
    rewrite <- Hfull. apply RuneError_unit; assumption.
Qed.

(** X20.  What [normalizeUTF8] computes, in terms of bytes alone: a
    valid input is returned as it is; from any other input it returns the
    well-formed units in order, except the units EF BF BD (the encoding
    of U+FFFD), which are removed together with the ill-formed bytes. *)
Lemma normalizeUTF8_spec (b : list byte) :
  normalizeUTF8 b =
  if utf8.Valid b then b
  else List.concat
         (filter (fun u => negb (is_replacement_character u))
                 (well_formed_units b)).
Proof.
  unfold normalizeUTF8. destruct (utf8.Valid b); [reflexivity|].
  rewrite normalize_loop_units. f_equal.
  apply filter_ext_in. intros u Hin. apply (kept_units b u Hin).
Qed.

(** C7 (what the code does instead).  The bytes EF BF BD are the
    well-formed encoding of U+FFFD.  Followed by the ill-formed byte FF
    they are decoded as [(RuneError, 3)], which the loop takes for a
    decoding error: the result is empty although the input has one
    well-formed unit.  Alone, the same three bytes are returned as they
    are. *)
Theorem normalizeUTF8_drops_replacement_character :
  utf8.Valid [xef; xbf; xbd] = true /\
  well_formed_units [xef; xbf; xbd; xff] = [[xef; xbf; xbd]] /\
  utf8.DecodeRune [xef; xbf; xbd; xff] = (utf8.RuneError, 3%nat) /\
  normalizeUTF8 [xef; xbf; xbd; xff] = [] /\
  normalizeUTF8 [xef; xbf; xbd] = [xef; xbf; xbd] /\
  normalizeUTF8 [xef; xbf; xbd; xff]
    <> List.concat (well_formed_units [xef; xbf; xbd; xff]).
Proof.
  repeat split; try (vm_compute; reflexivity).
  vm_compute. discriminate.
Qed.

(** ** [roundTime] *)

Lemma wrap64_id (z : Z) : MinInt64 <= z <= MaxInt64 -> wrap64 z = z.
Proof.
  unfold wrap64, MinInt64, MaxInt64. intros H.
  rewrite Z.mod_small; lia.
Qed.

(** Adding half a unit and truncating rounds a non-negative value to the
    nearest multiple, a tie going up. *)
Lemma add_half_truncate (unit d : Z) :
  0 < unit -> unit mod 2 = 0 -> 0 <= d ->
  rounded_to unit d ((d + unit / 2) / unit * unit).
Proof.
  intros Hu Heven Hd.
  pose proof (Z.div_mod unit 2 ltac:(lia)) as Hhalf.
  pose proof (Z.div_mod (d + unit / 2) unit ltac:(lia)) as Hdm.
  pose proof (Z.mod_pos_bound (d + unit / 2) unit Hu) as Hbound.
  set (q := (d + unit / 2) / unit) in *.
  set (m := (d + unit / 2) mod unit) in *.
  set (h := unit / 2) in *.
  assert (Hq : 0 <= q) by (apply Z.div_pos; lia).
  unfold rounded_to. repeat split.
  - apply Z.mod_mul. lia.
  - lia.
  - lia.
Qed.

Lemma roundTime_below_millisecond (d : Duration) :
  d < Millisecond -> roundTime d = d.
Proof.
  intros H. unfold roundTime.
  destruct (Z.ltb_spec d Millisecond); [reflexivity | lia].
Qed.

Lemma roundTime_microsecond_tier (d : Duration) :
  Millisecond <= d < Second ->
  roundTime d = (d + Microsecond / 2) / Microsecond * Microsecond.
Proof.
  intros [Hlo Hhi]. unfold roundTime.
  destruct (Z.ltb_spec d Millisecond); [lia|].
  destruct (Z.ltb_spec d Second); [|lia].
  unfold int64_mul, int64_div, int64_add.
  change (Z.quot Microsecond 2) with 500.
  change (Microsecond / 2) with 500.
  unfold Millisecond, Second, Millisecond, Microsecond, Nanosecond in *.
  rewrite (wrap64_id (d + 500)) by (unfold MinInt64, MaxInt64; lia).
  rewrite Z.quot_div_nonneg by lia.
  pose proof (Z.div_mod (d + 500) (1000 * 1) ltac:(lia)) as Hdm.
  pose proof (Z.mod_pos_bound (d + 500) (1000 * 1) ltac:(lia)) as Hb.
  rewrite (wrap64_id ((d + 500) / (1000 * 1))) by (unfold MinInt64, MaxInt64; lia).
  apply wrap64_id. unfold MinInt64, MaxInt64. lia.
Qed.

Lemma roundTime_millisecond_tier (d : Duration) :
  Second <= d <= MaxInt64 - Millisecond / 2 ->
  roundTime d = (d + Millisecond / 2) / Millisecond * Millisecond.
Proof.
  intros [Hlo Hhi]. unfold roundTime.
  destruct (Z.ltb_spec d Millisecond);
    [unfold Second, Millisecond, Microsecond, Nanosecond in *; lia|].
  destruct (Z.ltb_spec d Second); [lia|].
  unfold int64_mul, int64_div, int64_add.
  change (Z.quot Millisecond 2) with 500000.
  change (Millisecond / 2) with 500000 in *.
  unfold Millisecond, Second, Millisecond, Microsecond, Nanosecond in *.
  unfold MaxInt64 in Hhi.
  rewrite (wrap64_id (d + 500000)) by (unfold MinInt64, MaxInt64; lia).
  rewrite Z.quot_div_nonneg by lia.
  pose proof (Z.div_mod (d + 500000) (1000 * (1000 * 1)) ltac:(lia)) as Hdm.
  pose proof (Z.mod_pos_bound (d + 500000) (1000 * (1000 * 1)) ltac:(lia)) as Hb.
  rewrite (wrap64_id ((d + 500000) / (1000 * (1000 * 1))))
    by (unfold MinInt64, MaxInt64; lia).
  apply wrap64_id. unfold MinInt64, MaxInt64. lia.
Qed.

(** C9 (amended).  [roundTime d = d] for every duration [d] below one
    millisecond; for [d] in [1ms, 1s) the result is [d] rounded to the
    nearest microsecond; for [d] of one second or more, and at most
    [MaxInt64] minus half a millisecond, it is [d] rounded to the
    nearest millisecond; in the rounded tiers a tie goes away from zero,
    the result being [d] plus half a unit, truncated to the unit. *)
Theorem roundTime_tiers (d : Duration) :
  ((d < Millisecond)%Z -> roundTime d = d) /\
  ((Millisecond <= d < Second)%Z ->
     roundTime d = ((d + Microsecond / 2) / Microsecond * Microsecond)%Z /\
     rounded_to Microsecond d (roundTime d)) /\
  ((Second <= d <= MaxInt64 - Millisecond / 2)%Z ->
     roundTime d = ((d + Millisecond / 2) / Millisecond * Millisecond)%Z /\
     rounded_to Millisecond d (roundTime d)).
Proof.
  split; [|split].
  - apply roundTime_below_millisecond.
  - intros H. rewrite (roundTime_microsecond_tier d H).
    split; [reflexivity|].
    apply add_half_truncate; [reflexivity | reflexivity |].
    unfold Millisecond, Microsecond, Nanosecond in H. lia.
  - intros H. rewrite (roundTime_millisecond_tier d H).
    split; [reflexivity|].
    apply add_half_truncate; [reflexivity | reflexivity |].
    unfold Second, Millisecond, Microsecond, Nanosecond in H. lia.
Qed.

Lemma roundTime_tiers_witness :
  roundTime 999999 = 999999%Z /\
  roundTime 1500400 = 1500000%Z /\
  roundTime 1500500 = 1501000%Z /\
  roundTime 1000500000 = 1001000000%Z /\
  rounded_to Millisecond 1000500000 (roundTime 1000500000).
Proof.
  destruct (roundTime_tiers 999999) as [Hns _].
  destruct (roundTime_tiers 1500400) as [_ [Hus1 _]].
  destruct (roundTime_tiers 1500500) as [_ [Hus2 _]].
  destruct (roundTime_tiers 1000500000) as [_ [_ Hms]].
  split; [apply Hns; reflexivity|].
  split; [apply Hus1; split; [vm_compute; discriminate | reflexivity]|].
  split; [apply Hus2; split; [vm_compute; discriminate | reflexivity]|].
  split; apply Hms; split; vm_compute; discriminate.
Defined.

(** C9 fails as stated: for a duration within half a millisecond of
    [MaxInt64] the addition wraps around and the result is negative,
    although the nearest millisecond is representable. *)
Lemma roundTime_wraps_near_MaxInt64 :
  (Second <= 9223372036854375807 <= MaxInt64)%Z /\
  rounded_to Millisecond 9223372036854375807 9223372036854000000 /\
  roundTime 9223372036854375807 = (-9223372036854000000)%Z /\
  ~ rounded_to Millisecond 9223372036854375807 (roundTime 9223372036854375807).
Proof.
  split; [vm_compute; intuition discriminate|].
  split; [unfold rounded_to; vm_compute; intuition discriminate|].
  split; [vm_compute; reflexivity|].
  intros [_ [H _]]. vm_compute in H. apply H. reflexivity.
Qed.

(** ** The handler *)

#[local] Open Scope string_scope.

Lemma append_empty_r (s : string) : s ++ "" = s.
Proof.
  induction s as [|c s IH]; simpl; [reflexivity | now rewrite IH].
Qed.

Section Properties.

Variable Duration_String : Duration -> string.
Variable ValidatePayload : Request -> list byte -> option (list byte).
Variable WebHookType : Request -> string.
Variable ParseWebHook : string -> list byte -> option Event.

#[local] Abbreviation serve :=
  (ServeHTTP Duration_String ValidatePayload WebHookType ParseWebHook).
#[local] Abbreviation class := (classify ValidatePayload WebHookType ParseWebHook).
#[local] Abbreviation delivered :=
  (delivers ValidatePayload WebHookType ParseWebHook).

(** A delivery runs the switch on the event and then acknowledges. *)
Lemma ServeHTTP_delivers (s : server) (r : Request) (env : Env) (ev : Event) :
  delivered s r ev ->
  serve s r env =
  (act (Printf "%-4s %-21s %s" [Method r; RemoteAddr r; Path r]) ;;;
   defer BodyClose
     (handle_event Duration_String ev env ;;; io_WriteString "{}")).
Proof.
  intros (Hpath & Hmethod & Hping & payload & Hvalid & Hparse).
  unfold ServeHTTP.
  apply String.eqb_neq in Hping.
  rewrite Hpath, Hmethod, Hvalid, Hping, Hparse. reflexivity.
Qed.

(** The switch on a push event that carries a head commit: one log
    line, then [pullRepo]. *)
Lemma handle_event_push (ev : Event) (env : Env) (repo ref commit : string) :
  spec_event ev = Some (Push repo ref (Some commit)) ->
  handle_event Duration_String ev env =
  (act (Printf "- Push %s %s %s" [repo; ref; commit]) ;;;
   _ <- pullRepo Duration_String (pull env) ;;
   ret tt).
Proof.
  destruct ev as [[[ref'|] [[[name|]]|] [[[id|]]|]]|type_name|];
    simpl; intros H; inversion H; subst; reflexivity.
Qed.

(** The switch on a push event without head commit: one log line. *)
Lemma handle_event_deleted (ev : Event) (env : Env) (repo ref : string) :
  spec_event ev = Some (Push repo ref None) ->
  handle_event Duration_String ev env =
  act (Printf "- Push %s %s <deleted>" [repo; ref]).
Proof.
  destruct ev as [[[ref'|] [[[name|]]|] [[[id|]]|]]|type_name|];
    simpl; intros H; inversion H; subst; reflexivity.
Qed.

(** The switch on any other event: one log line. *)
Lemma handle_event_other (ev : Event) (env : Env) :
  spec_event ev = Some Other ->
  exists type_name,
    handle_event Duration_String ev env =
    act (Printf "- ignoring hook type %s" [type_name]).
Proof.
  destruct ev as [[[ref'|] [[[name|]]|] [[[id|]]|]]|type_name|];
    simpl; intros H; inversion H; subst. eexists. reflexivity.
Qed.

(** A request classified [PushTrigger] is the delivery of a push event
    with a head commit. *)
Lemma classify_PushTrigger (s : server) (r : Request) (repo ref commit : string) :
  class s r = Some (PushTrigger repo ref commit) ->
  exists ev, delivered s r ev /\
             spec_event ev = Some (Push repo ref (Some commit)).
Proof.
  unfold classify, delivers.
  destruct (Path r =? "/") eqn:Hpath; simpl; [|discriminate].
  destruct (Method r =? "HEAD") eqn:Hhead; [discriminate|].
  destruct (Method r =? "GET") eqn:Hget; [discriminate|].
  destruct (Method r =? "POST") eqn:Hpost; simpl; [|discriminate].
  destruct (ValidatePayload r (bytes (WebHookSecret s))) as [payload|] eqn:Hvalid;
    [|discriminate].
  destruct (WebHookType r =? "ping") eqn:Hping; [discriminate|].
  destruct (ParseWebHook (WebHookType r) payload) as [ev|] eqn:Hparse;
    [|discriminate].
  destruct (spec_event ev) as [[repo' ref' [commit'|]|]|] eqn:Hev;
    try discriminate.
  intros H. inversion H; subst.
  exists ev. apply String.eqb_eq in Hpath, Hpost. apply String.eqb_neq in Hping.
  split; [|exact Hev].
  split; [exact Hpath|]. split; [exact Hpost|]. split; [exact Hping|].
  exists payload. split; [reflexivity | exact Hparse].
Qed.

(** The actions of a request classified [PushTrigger], in order. *)
Lemma ServeHTTP_PushTrigger_trace
      (s : server) (r : Request) (env : Env) (repo ref commit : string) :
  class s r = Some (PushTrigger repo ref commit) ->
  serve s r env =
  ([Printf "%-4s %-21s %s" [Method r; RemoteAddr r; Path r];
    Printf "- Push %s %s %s" [repo; ref; commit];
    Printf "- %s" [cmds];
    ExecStart cmd;
    ExecWait;
    Write "{}";
    BodyClose],
   Returned tt).
Proof.
  intros H. apply classify_PushTrigger in H. destruct H as (ev & Hd & Hev).
  rewrite (ServeHTTP_delivers s r env ev Hd).
  rewrite (handle_event_push ev env repo ref commit Hev).
  reflexivity.
Qed.

(** What [pullRepo] does to the outside world does not depend on the
    result of the command. *)
Lemma pullRepo_trace (res : cmd_result) :
  trace (pullRepo Duration_String res) =
  [Printf "- %s" [cmds]; ExecStart cmd; ExecWait].
Proof. reflexivity. Qed.

(** No handler touches the wait group or the mutex, whatever the
    request. *)
Lemma ServeHTTP_quiet (s : server) (r : Request) (env : Env) :
  forallb quiet (trace (serve s r env)) = true.
Proof.
  unfold ServeHTTP.
  destruct (negb (Path r =? "") && negb (Path r =? "/")); [reflexivity|].
  destruct (Method r =? "HEAD"); [reflexivity|].
  destruct (Method r =? "GET"); [reflexivity|].
  destruct (negb (Method r =? "POST")); [reflexivity|].
  destruct (ValidatePayload r (bytes (WebHookSecret s))) as [payload|];
    [|reflexivity].
  cbv zeta.
  destruct (negb (WebHookType r =? "ping")); [|reflexivity].
  destruct (ParseWebHook (WebHookType r) payload) as [ev|]; [|reflexivity].
  destruct ev as [[[ref|] [[[name|]]|] [[[id|]]|]]|type_name|]; reflexivity.
Qed.

Lemma mainImpl_restart (menv : MainEnv) (port : Z) (secret wd exe addr : string) :
  flags menv = Some (port, secret) ->
  Getwd menv = inl wd ->
  Executable menv = inl exe ->
  Listen menv = inl addr ->
  NewWatcher menv = None ->
  WatcherAdd menv = None ->
  signal menv = EventFired ->
  mainImpl menv =
  ([Printf "Running in: %s" [wd];
    Printf "Executable: %s" [exe];
    Printf "Listening on: %s" [addr];
    GoListenAndServe addr;
    WgWait],
   MReturn None).
Proof.
  intros Hf Hwd Hexe Hln Hnew Hadd Hsig.
  unfold mainImpl, watch_and_drain.
  rewrite Hf, Hwd, Hexe, Hln, Hnew, Hadd, Hsig. reflexivity.
Qed.

(** C1 (what the code does instead).  For a request classified
    PushTrigger the handler calls [pullRepo] itself: the command is
    started and [CombinedOutput] has returned before anything is written
    to the response.  Nothing is sent while the command runs, and the
    acknowledgment [{}] is the first action after it. *)
Theorem ServeHTTP_responds_after_pull
        (s : server) (r : Request) (env : Env) (repo ref commit : string) :
  class s r = Some (PushTrigger repo ref commit) ->
  exists before,
    trace (serve s r env) =
      (before ++ [ExecStart cmd; ExecWait; Write "{}"; BodyClose])%list /\
    response_status before = None /\
    response_body before = "".
Proof.
  intros H.
  rewrite (ServeHTTP_PushTrigger_trace s r env repo ref commit H).
  exists [Printf "%-4s %-21s %s" [Method r; RemoteAddr r; Path r];
          Printf "- Push %s %s %s" [repo; ref; commit];
          Printf "- %s" [cmds]].
  repeat split.
Qed.

(** C2 (what the code does instead).  Two requests classified
    PushTrigger that are handled concurrently can both be running the
    synchronization command at the same instant: no handler locks the
    mutex, so there is a schedule after which both threads have started
    the command and neither has seen it return, the mutex being as it
    was. *)
Theorem ServeHTTP_pulls_overlap
        (s : server) (r1 r2 : Request) (env1 env2 : Env)
        (repo1 ref1 commit1 repo2 ref2 commit2 : string) :
  class s r1 = Some (PushTrigger repo1 ref1 commit1) ->
  class s r2 = Some (PushTrigger repo2 ref2 commit2) ->
  exists schedule st,
    run schedule (spawn s [trace (serve s r1 env1); trace (serve s r2 env2)])
      = Some st /\
    running_pulls st = 2%nat /\
    mu (shared st) = mu s.
Proof.
  intros H1 H2.
  rewrite (ServeHTTP_PushTrigger_trace s r1 env1 _ _ _ H1).
  rewrite (ServeHTTP_PushTrigger_trace s r2 env2 _ _ _ H2).
  exists [0; 0; 0; 0; 1; 1; 1; 1]%nat. eexists.
  split; [reflexivity|]. split; reflexivity.
Qed.

(** A POST to the root path with a correct signature whose body
    parses as a push event that carries the repository name and the ref
    runs the synchronization command exactly once when the event
    carries a head commit (with its identifier), and not at all when
    the head commit is absent (a branch deletion). *)
Lemma ServeHTTP_complete_push_executions
      (s : server) (r : Request) (env : Env) (ev : Event)
      (repo ref : string) (commit : option string) :
  delivered s r ev ->
  spec_event ev = Some (Push repo ref commit) ->
  executions (trace (serve s r env)) =
  match commit with
  | Some _ => 1%nat
  | None => 0%nat
  end.
Proof.
  intros Hd Hev.
  rewrite (ServeHTTP_delivers s r env ev Hd).
  destruct commit as [commit|].
  - rewrite (handle_event_push ev env repo ref commit Hev). reflexivity.
  - rewrite (handle_event_deleted ev env repo ref Hev). reflexivity.
Qed.

(** C3 (what the code does instead).  A POST to the root path with a
    correct signature whose body parses as a push event that carries a
    head commit, but lacks the repository, its full name, the ref or the
    identifier of the head commit, makes the handler panic on a nil
    pointer while it builds the log line of line 144: [pullRepo] is not
    reached, the command is run zero times and nothing is written to
    the response. *)
Theorem ServeHTTP_incomplete_push_panics
        (s : server) (r : Request) (env : Env)
        (e : PushEvent) (head : PushEventCommit) :
  delivered s r (EvPush e) ->
  HeadCommit e = Some head ->
  spec_event (EvPush e) = None ->
  (exists msg, snd (serve s r env) = Panicked msg) /\
  executions (trace (serve s r env)) = 0%nat /\
  response_status (trace (serve s r env)) = None.
Proof.
  intros Hd Hhead Hev.
  rewrite (ServeHTTP_delivers s r env (EvPush e) Hd).
  destruct e as [[ref|] [[[name|]]|] head'].
  all: cbn [HeadCommit] in Hhead; subst head'.
  all: destruct head as [[id|]]; try discriminate Hev.
  all: split; [eexists; reflexivity | split; reflexivity].
Qed.

(** C4 (what the code does instead).  The handler of a request
    classified PushTrigger performs no operation on the wait group, so
    its counter stays at zero while the command runs; [wg.Wait] in
    [mainImpl] then does not block: there is a schedule in which
    [mainImpl] has returned while the handler is still running the
    command. *)
Theorem wait_group_never_counts
        (r : Request) (env : Env) (repo ref commit : string)
        (menv : MainEnv) (port : Z) (secret wd exe addr : string) :
  class (new_server secret) r = Some (PushTrigger repo ref commit) ->
  flags menv = Some (port, secret) ->
  Getwd menv = inl wd ->
  Executable menv = inl exe ->
  Listen menv = inl addr ->
  NewWatcher menv = None ->
  WatcherAdd menv = None ->
  signal menv = EventFired ->
  let handler := trace (serve (new_server secret) r env) in
  forallb (fun a => negb (is_wg_update a)) handler = true /\
  exists schedule st,
    run schedule (spawn (new_server secret) [fst (mainImpl menv); handler])
      = Some st /\
    option_map todo (nth_error (threads st) 0) = Some [] /\
    running_pulls st = 1%nat /\
    wg (shared st) = 0%Z.
Proof.
  intros Hc Hf Hwd Hexe Hln Hnew Hadd Hsig handler. subst handler.
  rewrite (ServeHTTP_PushTrigger_trace _ r env _ _ _ Hc).
  rewrite (mainImpl_restart menv port secret wd exe addr Hf Hwd Hexe Hln Hnew Hadd Hsig).
  split; [reflexivity|].
  exists [0; 0; 0; 0; 1; 1; 1; 1; 0]%nat. eexists.
  split; [reflexivity|]. repeat split.
Qed.

(** C5 (amended).  A request classified Alive (HEAD) receives a bare
    200 with an empty body, one classified StatusQuery (GET) a 200 whose
    body is the uptime as text, and one classified Ping, PushTrigger or
    Ignored a 200 whose body is [{}]; the other classifications receive
    their error status (NotFound when the path is not empty). *)
Theorem ServeHTTP_acknowledgment
        (s : server) (r : Request) (env : Env) (c : Classification) :
  class s r = Some c ->
  let tr := trace (serve s r env) in
  match c with
  | Alive => response_status tr = Some 200%Z /\ response_body tr = ""
  | StatusQuery =>
    response_status tr = Some 200%Z /\
    response_body tr = Duration_String (uptime env)
  | Ping | PushTrigger _ _ _ | Ignored =>
    response_status tr = Some 200%Z /\ response_body tr = "{}"
  | NotFound => Path r <> "" -> response_status tr = Some 404%Z
  | MethodRejected => response_status tr = Some 405%Z
  | Unauthorized => response_status tr = Some 401%Z
  | BadPayload => response_status tr = Some 400%Z
  end.
Proof.
  unfold classify, ServeHTTP.
  destruct (Path r =? "/") eqn:Hpath; cbn [negb].
  2:{ intros H; inversion H; subst; clear H.
      intros Hne. apply String.eqb_neq in Hne. rewrite Hne. reflexivity. }
  apply String.eqb_eq in Hpath. rewrite Hpath. cbn [String.eqb negb andb Ascii.eqb Bool.eqb].
  destruct (Method r =? "HEAD").
  { intros H; inversion H; subst. split; reflexivity. }
  destruct (Method r =? "GET").
  { intros H; inversion H; subst. cbn.
    rewrite append_empty_r. split; reflexivity. }
  destruct (Method r =? "POST"); cbn [negb].
  2:{ intros H; inversion H; subst. reflexivity. }
  destruct (ValidatePayload r (bytes (WebHookSecret s))) as [payload|].
  2:{ intros H; inversion H; subst. reflexivity. }
  cbv zeta.
  destruct (WebHookType r =? "ping"); cbn [negb].
  { intros H; inversion H; subst. split; reflexivity. }
  destruct (ParseWebHook (WebHookType r) payload) as [ev|].
  2:{ intros H; inversion H; subst. reflexivity. }
  destruct ev as [[[ref|] [[[name|]]|] [[[id|]]|]]|type_name|]; cbn;
    intros H; inversion H; subst; split; reflexivity.
Qed.

(** C8.  A request whose path is not the root path (the handler takes
    the empty path and ["/"] for the root path, line 106) is classified
    NotFound and answered with 404, whatever its method, headers and
    body: the handler logs, writes the 404 response and returns, and the
    synchronization command is not run. *)
Theorem ServeHTTP_not_found (s : server) (r : Request) (env : Env) :
  Path r <> "" ->
  Path r <> "/" ->
  class s r = Some NotFound /\
  serve s r env =
    ([Printf "%-4s %-21s %s" [Method r; RemoteAddr r; Path r];
      Printf "- Unexpected path %s" [Path r];
      SetHeader "Content-Type" "text/plain; charset=utf-8";
      SetHeader "X-Content-Type-Options" "nosniff";
      WriteHeader 404;
      Write ("404 page not found" ++ nl);
      BodyClose],
     Returned tt) /\
  response_status (trace (serve s r env)) = Some 404%Z /\
  executions (trace (serve s r env)) = 0%nat.
Proof.
  intros Hempty Hroot.
  apply String.eqb_neq in Hempty, Hroot.
  unfold classify, ServeHTTP. rewrite Hempty, Hroot.
  repeat split.
Qed.

End Properties.

(** ** [pullRepo] *)

(** C6.  [pullRepo] never panics: whatever the command did, it returns
    a formatted text and a success flag.  The text reports exit status 0
    on success; on failure it reports the exit code of the process when
    there is one and -1 otherwise; when the failed command printed
    nothing, the output is a placeholder that embeds the error message;
    the output goes through [normalizeUTF8] before it is included. *)
Theorem pullRepo_result (Duration_String : Duration -> string) (res : cmd_result) :
  exists exit body,
    snd (pullRepo Duration_String res) =
      Returned
        ((bytes ("$ git pull --prune --quiet  (exit:" ++ itoa exit ++ " in "
                 ++ Duration_String (roundTime (duration res)) ++ ")" ++ nl)
          ++ normalizeUTF8 body)%list,
         match err res with None => true | Some _ => false end) /\
    (err res = None -> exit = 0%Z /\ body = out res) /\
    (forall msg code, err res = Some (ExitError msg (Some code)) -> exit = code) /\
    (forall msg, err res = Some (ExitError msg None) -> exit = (-1)%Z) /\
    (forall msg, err res = Some (OtherError msg) -> exit = (-1)%Z) /\
    (forall e, err res = Some e -> out res = [] ->
               body = bytes ("<failure>" ++ nl ++ Error e ++ nl)) /\
    (forall e, err res = Some e -> out res <> [] -> body = out res).
Proof.
  exists (exit_code (err res)), (reported_output (out res) (err res)).
  split; [reflexivity|].
  destruct res as [o e d]; cbn [err out duration].
  split; [intros ->; split; reflexivity|].
  split; [intros msg code ->; reflexivity|].
  split; [intros msg ->; reflexivity|].
  split; [intros msg ->; reflexivity|].
  split; [intros e' -> ->; reflexivity|].
  intros e' -> Hne. destruct o; [contradiction | reflexivity].
Qed.

(** ** [mainImpl] and [main] *)

(** C10.  When the watcher is established and the restart signal fires,
    [mainImpl] waits on the wait group and returns [nil], and the process
    exits with status 0.  The process exits with status 1 exactly when
    [mainImpl] returns an error that is not [nil], and then prints it on
    the standard error; such an error comes from the error channel of
    the watcher, from resolving the working directory or the
    executable, or from binding the port. *)
Theorem main_exit_status (env : MainEnv) :
  (forall port secret wd exe addr,
      flags env = Some (port, secret) ->
      Getwd env = inl wd ->
      Executable env = inl exe ->
      Listen env = inl addr ->
      NewWatcher env = None ->
      WatcherAdd env = None ->
      (signal env = EventFired ->
         snd (mainImpl env) = MReturn None /\
         last (fst (mainImpl env)) BodyClose = WgWait /\
         snd (main env) = Exit 0) /\
      (forall e, signal env = ErrorFired (Some e) ->
         snd (mainImpl env) = MReturn (Some e) /\ snd (main env) = Exit 1)) /\
  (snd (main env) = Exit 1 <->
     exists e, snd (mainImpl env) = MReturn (Some e)) /\
  (forall e, snd (mainImpl env) = MReturn (Some e) ->
     last (fst (main env)) BodyClose =
       Fprintf_stderr ("pullhook: %s." ++ nl) [e]) /\
  (forall port secret e,
      flags env = Some (port, secret) -> Getwd env = inr e ->
      snd (mainImpl env) = MReturn (Some e)) /\
  (forall port secret wd e,
      flags env = Some (port, secret) -> Getwd env = inl wd ->
      Executable env = inr e ->
      snd (mainImpl env) = MReturn (Some e)) /\
  (forall port secret wd exe e,
      flags env = Some (port, secret) -> Getwd env = inl wd ->
      Executable env = inl exe -> Listen env = inr e ->
      snd (mainImpl env) = MReturn (Some e)).
Proof.
  split; [|split; [|split; [|split; [|split]]]].
  - intros port secret wd exe addr Hf Hwd Hexe Hln Hnew Hadd.
    split.
    + intros Hsig.
      unfold main.
      rewrite (mainImpl_restart env port secret wd exe addr
                 Hf Hwd Hexe Hln Hnew Hadd Hsig).
      repeat split.
    + intros e Hsig. unfold main, mainImpl, watch_and_drain.
      rewrite Hf, Hwd, Hexe, Hln, Hnew, Hadd, Hsig. split; reflexivity.
  - unfold main. destruct (mainImpl env) as [tr [[e|]| |code]] eqn:E; cbn.
    + split; [intros _; exists e; reflexivity | reflexivity].
    + split; [discriminate | intros [e H]; discriminate].
    + split; [discriminate | intros [e H]; discriminate].
    + split; [|intros [e H]; discriminate].
      intros H. exfalso.
      unfold mainImpl, watch_and_drain in E.
      destruct (flags env) as [[port secret]|];
        [|inversion E; subst; destruct (help env); discriminate].
      destruct (Getwd env); [|discriminate].
      destruct (Executable env); [|discriminate].
      destruct (Listen env); [|discriminate].
      destruct (NewWatcher env); [discriminate|].
      destruct (WatcherAdd env); [discriminate|].
      destruct (signal env); discriminate.
  - intros e H. unfold main.
    destruct (mainImpl env) as [tr o]. cbn in H. subst o.
    cbn [fst]. apply last_last.
  - intros port secret e Hf Hwd. unfold mainImpl. rewrite Hf, Hwd. reflexivity.
  - intros port secret wd e Hf Hwd Hexe. unfold mainImpl.
    rewrite Hf, Hwd, Hexe. reflexivity.
  - intros port secret wd exe e Hf Hwd Hexe Hln. unfold mainImpl.
    rewrite Hf, Hwd, Hexe, Hln. reflexivity.
Qed.

(** ** The properties on concrete requests *)

Lemma ServeHTTP_responds_after_pull_witness :
  exists before,
    trace (sample_ServeHTTP sample_server push_request sample_env) =
      (before ++ [ExecStart cmd; ExecWait; Write "{}"; BodyClose])%list /\
    response_status before = None /\
    response_body before = "".
Proof.
  apply (ServeHTTP_responds_after_pull
           sample_Duration_String sample_ValidatePayload
           sample_WebHookType sample_ParseWebHook
           sample_server push_request sample_env
           "maruel/pullhook" "refs/heads/master" "0123abcd").
  vm_compute. reflexivity.
Defined.

Lemma ServeHTTP_pulls_overlap_witness :
  exists schedule st,
    run schedule
        (spawn sample_server
               [trace (sample_ServeHTTP sample_server push_request sample_env);
                trace (sample_ServeHTTP sample_server push_request sample_env)])
      = Some st /\
    running_pulls st = 2%nat /\
    mu (shared st) = mu sample_server.
Proof.
  apply (ServeHTTP_pulls_overlap
           sample_Duration_String sample_ValidatePayload
           sample_WebHookType sample_ParseWebHook
           sample_server push_request push_request sample_env sample_env
           "maruel/pullhook" "refs/heads/master" "0123abcd"
           "maruel/pullhook" "refs/heads/master" "0123abcd");
    vm_compute; reflexivity.
Defined.

Lemma ServeHTTP_incomplete_push_panics_witness :
  (exists msg,
      snd (sample_ServeHTTP sample_server noref_request sample_env)
      = Panicked msg) /\
  executions (trace (sample_ServeHTTP sample_server noref_request sample_env))
    = 0%nat /\
  response_status
    (trace (sample_ServeHTTP sample_server noref_request sample_env)) = None.
Proof.
  apply (ServeHTTP_incomplete_push_panics
           sample_Duration_String sample_ValidatePayload
           sample_WebHookType sample_ParseWebHook
           sample_server noref_request sample_env
           {| Ref := None;
              Repo := Some {| FullName := Some "maruel/pullhook" |};
              HeadCommit := Some {| ID := Some "0123abcd" |} |}
           {| ID := Some "0123abcd" |}).
  - split; [reflexivity|]. split; [reflexivity|].
    split; [vm_compute; discriminate|].
    exists (bytes "noref"). split; vm_compute; reflexivity.
  - reflexivity.
  - reflexivity.
Defined.

Lemma wait_group_never_counts_witness :
  let handler := trace (sample_ServeHTTP sample_server push_request sample_env) in
  forallb (fun a => negb (is_wg_update a)) handler = true /\
  exists schedule st,
    run schedule (spawn sample_server [fst (mainImpl sample_main_env); handler])
      = Some st /\
    option_map todo (nth_error (threads st) 0) = Some [] /\
    running_pulls st = 1%nat /\
    wg (shared st) = 0%Z.
Proof.
  apply (wait_group_never_counts
           sample_Duration_String sample_ValidatePayload
           sample_WebHookType sample_ParseWebHook
           push_request sample_env
           "maruel/pullhook" "refs/heads/master" "0123abcd"
           sample_main_env 8080 "s3cret" "/srv/checkout"
           "/usr/local/bin/pullhook" "[::]:8080");
    vm_compute; reflexivity.
Defined.

Lemma ServeHTTP_acknowledgment_witness :
  response_status
    (trace (sample_ServeHTTP sample_server
                             (sample_request "POST" "/" "ping" "") sample_env))
    = Some 200%Z /\
  response_body
    (trace (sample_ServeHTTP sample_server
                             (sample_request "POST" "/" "ping" "") sample_env))
    = "{}".
Proof.
  apply (ServeHTTP_acknowledgment
           sample_Duration_String sample_ValidatePayload
           sample_WebHookType sample_ParseWebHook
           sample_server (sample_request "POST" "/" "ping" "") sample_env Ping).
  vm_compute. reflexivity.
Defined.

(** C5 fails as stated: a HEAD request to the root path is classified
    Alive, and its response has no body at all. *)
Lemma head_response_has_no_body :
  sample_classify sample_server (sample_request "HEAD" "/" "" "") = Some Alive /\
  response_status
    (trace (sample_ServeHTTP sample_server
                             (sample_request "HEAD" "/" "" "") sample_env))
    = Some 200%Z /\
  response_body
    (trace (sample_ServeHTTP sample_server
                             (sample_request "HEAD" "/" "" "") sample_env))
    = "" /\
  response_body
    (trace (sample_ServeHTTP sample_server
                             (sample_request "HEAD" "/" "" "") sample_env))
    <> "{}".
Proof.
  split; [reflexivity|]. split; [reflexivity|]. split; [reflexivity|].
  vm_compute. discriminate.
Qed.

Lemma ServeHTTP_not_found_witness :
  sample_classify sample_server (sample_request "POST" "/foo" "push" "commit")
    = Some NotFound /\
  response_status
    (trace (sample_ServeHTTP sample_server
              (sample_request "POST" "/foo" "push" "commit") sample_env))
    = Some 404%Z /\
  executions
    (trace (sample_ServeHTTP sample_server
              (sample_request "POST" "/foo" "push" "commit") sample_env))
    = 0%nat.
Proof.
  destruct (ServeHTTP_not_found
              sample_Duration_String sample_ValidatePayload
              sample_WebHookType sample_ParseWebHook
              sample_server (sample_request "POST" "/foo" "push" "commit")
              sample_env)
    as (Hclass & _ & Hstatus & Hexec).
  - vm_compute. discriminate.
  - vm_compute. discriminate.
  - split; [exact Hclass|]. split; [exact Hstatus | exact Hexec].
Defined.

Lemma main_exit_status_witness :
  snd (mainImpl sample_main_env) = MReturn None /\
  last (fst (mainImpl sample_main_env)) BodyClose = WgWait /\
  snd (main sample_main_env) = Exit 0.
Proof.
  destruct (main_exit_status sample_main_env) as [H _].
  destruct (H 8080%Z "s3cret" "/srv/checkout" "/usr/local/bin/pullhook"
              "[::]:8080" eq_refl eq_refl eq_refl eq_refl eq_refl eq_refl)
    as [Hrestart _].
  apply Hrestart. reflexivity.
Defined.

(** * Further properties of the code *)

#[local] Open Scope list_scope.
#[local] Open Scope Z_scope.

(** ** [normalizeUTF8] *)

(** X1.  Whatever bytes the untrusted process printed, the result of
    [normalizeUTF8] is valid UTF-8. *)
Theorem normalizeUTF8_returns_valid_utf8 (b : list byte) :
  utf8.Valid (normalizeUTF8 b) = true.
Proof. apply normalizeUTF8_Valid. Qed.

(** X2.  The inputs that [normalizeUTF8] returns unchanged are exactly
    the valid ones: an input that is not valid always loses bytes or
    changes. *)
Theorem normalizeUTF8_fixed_points (b : list byte) :
  normalizeUTF8 b = b <-> utf8.Valid b = true.
Proof.
  split.
  - intros H. rewrite <- H. apply normalizeUTF8_Valid.
  - intros H. unfold normalizeUTF8. now rewrite H.
Qed.

Lemma normalize_loop_length (b : list byte) :
  (List.length (normalize_loop b []) <= List.length b)%nat.
Proof.
  remember (List.length b) as n eqn:Hn.
  revert b Hn.
  induction n as [n IH] using lt_wf_ind; intros b Hn.
  destruct b as [|p0 t]; [simp normalize_loop; simpl; lia|].
  rewrite normalize_loop_cons, length_app.
  pose proof (loop_rest_shorter p0 t) as Hlt.
  pose proof (IH _ ltac:(subst n; exact Hlt) (loop_rest (p0 :: t)) eq_refl) as Hrec.
  assert (Hsplit : (List.length (loop_out (p0 :: t) [])
                    + List.length (loop_rest (p0 :: t))
                    <= List.length (p0 :: t))%nat).
  { unfold loop_out, loop_rest.
    destruct (utf8.DecodeRune (p0 :: t)) as [r size].
    pose proof (firstn_skipn size (p0 :: t)) as Hfs.
    apply (f_equal (@List.length byte)) in Hfs. rewrite length_app in Hfs.
    destruct (negb (r =? utf8.RuneError)); cbn [app List.length] in *; lia. }
  subst n. lia.
Qed.

(** X3.  [normalizeUTF8] only removes bytes: its result is never longer
    than its input. *)
Theorem normalizeUTF8_never_longer (b : list byte) :
  (List.length (normalizeUTF8 b) <= List.length b)%nat.
Proof.
  unfold normalizeUTF8. destruct (utf8.Valid b); [lia|].
  apply normalize_loop_length.
Qed.

(** ** [roundTime] *)

Lemma roundTime_microsecond_value (d : Duration) :
  Millisecond <= d < Second ->
  roundTime d = Microsecond * ((d + 500) / Microsecond).
Proof.
  intros H. rewrite (roundTime_microsecond_tier d H).
  change (Microsecond / 2) with 500. lia.
Qed.

Lemma roundTime_millisecond_value (d : Duration) :
  Second <= d <= MaxInt64 - Millisecond / 2 ->
  roundTime d = Millisecond * ((d + 500000) / Millisecond).
Proof.
  intros H. rewrite (roundTime_millisecond_tier d H).
  change (Millisecond / 2) with 500000. lia.
Qed.

Ltac tiers d :=
  destruct (Z_lt_le_dec d Millisecond);
  [rewrite (roundTime_below_millisecond d) by assumption
  |destruct (Z_lt_le_dec d Second);
   [rewrite (roundTime_microsecond_value d) by (split; assumption)
   |rewrite (roundTime_millisecond_value d) by (split; assumption)]].

(** X4.  [roundTime] keeps the order of durations: a longer elapsed time
    is never displayed as a shorter one, also across the boundaries of
    the tiers (as long as the addition does not overflow). *)
Theorem roundTime_monotone (d1 d2 : Duration) :
  d1 <= d2 ->
  d2 <= MaxInt64 - Millisecond / 2 ->
  roundTime d1 <= roundTime d2.
Proof.
  intros Hle Hmax.
  assert (Hmax1 : d1 <= MaxInt64 - Millisecond / 2) by lia.
  tiers d1; tiers d2.
  all: change Millisecond with 1000000 in *; change Second with 1000000000 in *;
    change Microsecond with 1000 in *.
  all: repeat match goal with
         | |- context [?a / ?b] =>
             let q := fresh "q" in
             pose proof (Z.div_mod a b ltac:(lia));
             pose proof (Z.mod_pos_bound a b ltac:(lia));
             set (q := a / b) in *
         end.
  all: try lia.
  all: nia.
Qed.

(** X5.  Rounding a rounded duration changes nothing: the value that is
    displayed is stable under [roundTime]. *)
Theorem roundTime_idempotent (d : Duration) :
  d <= MaxInt64 - Millisecond / 2 ->
  roundTime (roundTime d) = roundTime d.
Proof.
  intros Hmax.
  destruct (Z_lt_le_dec d Millisecond) as [H1|H1].
  { rewrite (roundTime_below_millisecond d H1).
    apply roundTime_below_millisecond. exact H1. }
  change (Millisecond / 2) with 500000 in Hmax. unfold MaxInt64 in Hmax.
  destruct (Z_lt_le_dec d Second) as [H2|H2].
  - rewrite (roundTime_microsecond_value d (conj H1 H2)).
    change Millisecond with 1000000 in *; change Second with 1000000000 in *;
      change Microsecond with 1000 in *.
    pose proof (Z.div_mod (d + 500) 1000 ltac:(lia)) as Hdm.
    pose proof (Z.mod_pos_bound (d + 500) 1000 ltac:(lia)) as Hb.
    set (q := (d + 500) / 1000) in *.
    destruct (Z_lt_le_dec (1000 * q) 1000000000) as [H3|H3].
    + rewrite roundTime_microsecond_value
        by (change Millisecond with 1000000; change Second with 1000000000; lia).
      change Microsecond with 1000. f_equal.
      replace (1000 * q + 500) with (500 + q * 1000) by lia.
      rewrite Z.div_add by lia. reflexivity.
    + assert (Hq : q = 1000000) by lia. rewrite Hq.
      vm_compute. reflexivity.
  - assert (H3 : Second <= d <= MaxInt64 - Millisecond / 2)
      by (change (Millisecond / 2) with 500000; unfold MaxInt64; lia).
    rewrite (roundTime_millisecond_value d H3).
    change Millisecond with 1000000 in *; change Second with 1000000000 in *.
    pose proof (Z.div_mod (d + 500000) 1000000 ltac:(lia)) as Hdm.
    pose proof (Z.mod_pos_bound (d + 500000) 1000000 ltac:(lia)) as Hb.
    set (q := (d + 500000) / 1000000) in *.
    rewrite roundTime_millisecond_value
      by (change (Millisecond / 2) with 500000;
          change Millisecond with 1000000; change Second with 1000000000;
          unfold MaxInt64; lia).
    change Millisecond with 1000000. f_equal.
    replace (1000000 * q + 500000) with (500000 + q * 1000000) by lia.
    rewrite Z.div_add by lia. reflexivity.
Qed.

(** X6.  The edge of the type: for a duration within half a millisecond
    of [MaxInt64] the sum [t + time.Millisecond/2] wraps around, and
    [roundTime] returns the same negative duration for all of them. *)
Theorem roundTime_overflow (d : Duration) :
  MaxInt64 - Millisecond / 2 < d <= MaxInt64 ->
  roundTime d = -9223372036854000000.
Proof.
  intros [Hlo Hhi].
  change (Millisecond / 2) with 500000 in Hlo. unfold MaxInt64 in *.
  unfold roundTime.
  destruct (Z.ltb_spec d Millisecond) as [H|_];
    [change Millisecond with 1000000 in H; lia|].
  destruct (Z.ltb_spec d Second) as [H|_];
    [change Second with 1000000000 in H; lia|].
  unfold int64_mul, int64_div, int64_add.
  change (Z.quot Millisecond 2) with 500000.
  change Millisecond with 1000000.
  assert (Hwrap : wrap64 (d + 500000) = d + 500000 - 2 ^ 64).
  { unfold wrap64.
    replace (d + 500000 + 2 ^ 63) with (d + 500000 - 2 ^ 63 + 1 * 2 ^ 64) by lia.
    rewrite Z.mod_add by lia. rewrite Z.mod_small by lia. lia. }
  rewrite Hwrap.
  assert (Hquot : Z.quot (d + 500000 - 2 ^ 64) 1000000 = -9223372036854).
  { replace (d + 500000 - 2 ^ 64) with (- (2 ^ 64 - d - 500000)) by lia.
    rewrite Z.quot_opp_l by lia.
    rewrite Z.quot_div_nonneg by lia.
    pose proof (Z.div_mod (2 ^ 64 - d - 500000) 1000000 ltac:(lia)) as Hdm.
    pose proof (Z.mod_pos_bound (2 ^ 64 - d - 500000) 1000000 ltac:(lia)) as Hb.
    lia. }
  rewrite Hquot. vm_compute. reflexivity.
Qed.

(** ** The handler *)

#[local] Open Scope string_scope.

Section Handler.

Variable Duration_String : Duration -> string.
Variable ValidatePayload : Request -> list byte -> option (list byte).
Variable WebHookType : Request -> string.
Variable ParseWebHook : string -> list byte -> option Event.

#[local] Abbreviation serve :=
  (ServeHTTP Duration_String ValidatePayload WebHookType ParseWebHook).

(** The branch of [ServeHTTP] that a request takes. *)
Ltac serve_cases s r :=
  unfold ServeHTTP;
  destruct (String.eqb_spec (Path r) "") as [Hempty|Hempty];
  destruct (String.eqb_spec (Path r) "/") as [Hroot|Hroot];
  cbn [negb andb];
  try (destruct (String.eqb_spec (Method r) "HEAD") as [Hhead|Hhead]);
  try (destruct (String.eqb_spec (Method r) "GET") as [Hget|Hget]);
  try (destruct (String.eqb_spec (Method r) "POST") as [Hpost|Hpost]);
  cbn [negb];
  try (destruct (ValidatePayload r (bytes (WebHookSecret s)))
        as [?payload|] eqn:Hvalid);
  cbv zeta;
  try (destruct (String.eqb_spec (WebHookType r) "ping") as [Hping|Hping]);
  cbn [negb];
  try match goal with
      | |- context [ParseWebHook ?t ?p] =>
          destruct (ParseWebHook t p) as [?ev|] eqn:Hparse
      end;
  try match goal with
      | |- context [handle_event _ ?e _] =>
          destruct e as [[[?ref|] [[[?name|]]|] [[[?id|]]|]]|?type_name|]
      end.

(** X7.  Whatever the request, the only command a handler ever starts is
    [git pull --prune --quiet]: nothing of the request reaches the
    command line. *)
Theorem ServeHTTP_runs_only_git_pull
        (s : server) (r : Request) (env : Env) (argv : list string) :
  In (ExecStart argv) (trace (serve s r env)) ->
  argv = ["git"; "pull"; "--prune"; "--quiet"].
Proof.
  serve_cases s r; cbn; intros H;
    repeat match goal with
           | H : _ \/ _ |- _ => destruct H as [H|H]
           | H : False |- _ => contradiction
           | H : _ = ExecStart _ |- _ => inversion H; clear H
           end; reflexivity.
Qed.

(** X8.  A request runs the command at most once, and it runs it
    exactly when it is a signed POST to the root path whose body parses
    as a complete push event with a head commit: a HEAD or GET request,
    a request with a wrong signature, a ping, an event of another type
    and a branch deletion never start it. *)
Theorem ServeHTTP_pulls_iff_trigger (s : server) (r : Request) (env : Env) :
  (executions (trace (serve s r env)) <= 1)%nat /\
  (executions (trace (serve s r env)) = 1%nat <->
   pull_trigger ValidatePayload WebHookType ParseWebHook s r).
Proof.
  split; [|split].
  - serve_cases s r; cbn; lia.
  - serve_cases s r; cbn; intros H; try discriminate H.
    all: unfold pull_trigger.
    all: split; [auto|]; split; [assumption|]; split; [assumption|].
    all: do 5 eexists; split; [eassumption|]; split; [eassumption|].
    all: reflexivity.
  - intros (Hpath & Hm & Hp & pl & ev' & repo & ref' & commit
            & Hv & Hpa & Hev).
    serve_cases s r; cbn; try reflexivity; exfalso.
    all: try (destruct Hpath; congruence).
    all: try congruence.
    all: try (rewrite Hm in *; discriminate).
    all: assert (Hpl : payload = pl) by congruence; subst payload.
    all: try congruence.
    all: match goal with
         | Hparse : ParseWebHook _ _ = Some ?e |- _ =>
             assert (Hsame : ev' = e) by congruence; subst ev'
         end; cbn in Hev; discriminate Hev.
Qed.

(** X9.  The request body is always closed, and closing it is the last
    thing a handler does, whatever branch it takes and also when it
    panics. *)
Theorem ServeHTTP_closes_body_last (s : server) (r : Request) (env : Env) :
  last (trace (serve s r env)) WgWait = BodyClose.
Proof.
  unfold ServeHTTP.
  match goal with
  | |- context [defer BodyClose ?body] =>
      generalize body; intros body'
  end.
  unfold trace, bind, act, defer.
  destruct body' as [tr res]. cbn [fst snd].
  rewrite app_assoc. apply last_last.
Qed.

(** X10.  The handler panics on exactly one kind of request: a signed
    POST to the root path, not a ping, whose body parses to an event that
    stands for no [WebhookEvent]: the [nil] event of the body [null], or
    a push event that lacks the repository, its full name, the ref, or
    the identifier of its head commit.  Every other request is
    answered. *)
Theorem ServeHTTP_panics_iff (s : server) (r : Request) (env : Env) :
  (exists msg, snd (serve s r env) = Panicked msg) <->
  (Path r = "" \/ Path r = "/") /\
  Method r = "POST" /\
  WebHookType r <> "ping" /\
  exists payload ev,
    ValidatePayload r (bytes (WebHookSecret s)) = Some payload /\
    ParseWebHook (WebHookType r) payload = Some ev /\
    spec_event ev = None.
Proof.
  split.
  - serve_cases s r; cbn; intros [msg H]; try discriminate H.
    all: split; [auto|]; split; [assumption|]; split; [assumption|].
    all: do 2 eexists; split; [reflexivity|]; split; [eassumption|].
    all: reflexivity.
  - intros (Hpath & Hm & Hp & pl & ev' & Hv & Hpa & Hev).
    serve_cases s r; cbn; try (eexists; reflexivity); exfalso.
    all: try (destruct Hpath; congruence).
    all: try congruence.
    all: try (rewrite Hm in *; discriminate).
    all: assert (Hpl : payload = pl) by congruence; subst payload.
    all: try congruence.
    all: match goal with
         | Hparse : ParseWebHook _ _ = Some ?e' |- _ =>
             assert (Hsame : ev' = e') by congruence; subst ev'
         end; cbn in Hev; discriminate Hev.
Qed.

(** X11.  A request to the root path whose method is not HEAD, GET or
    POST is answered 405 with the text [Invalid method]; the signature
    is not looked at and the command is not run. *)
Theorem ServeHTTP_method_not_allowed (s : server) (r : Request) (env : Env) :
  Path r = "" \/ Path r = "/" ->
  Method r <> "HEAD" ->
  Method r <> "GET" ->
  Method r <> "POST" ->
  serve s r env =
  ([Printf "%-4s %-21s %s" [Method r; RemoteAddr r; Path r];
    SetHeader "Content-Type" "text/plain; charset=utf-8";
    SetHeader "X-Content-Type-Options" "nosniff";
    WriteHeader 405;
    Write ("Invalid method" ++ nl);
    Printf "- invalid method %s" [Method r];
    BodyClose],
   Returned tt).
Proof.
  intros Hpath Hhead' Hget' Hpost'.
  serve_cases s r; try contradiction; try reflexivity.
  all: destruct Hpath; contradiction.
Qed.

(** X12.  A POST to the root path whose signature does not validate is
    answered 401 with the text [Invalid secret]: the event type and the
    body are not looked at and the command is not run. *)
Theorem ServeHTTP_unauthorized (s : server) (r : Request) (env : Env) :
  Path r = "" \/ Path r = "/" ->
  Method r = "POST" ->
  ValidatePayload r (bytes (WebHookSecret s)) = None ->
  serve s r env =
  ([Printf "%-4s %-21s %s" [Method r; RemoteAddr r; Path r];
    SetHeader "Content-Type" "text/plain; charset=utf-8";
    SetHeader "X-Content-Type-Options" "nosniff";
    WriteHeader 401;
    Write ("Invalid secret" ++ nl);
    Printf "- invalid secret" [];
    BodyClose],
   Returned tt).
Proof.
  intros Hpath Hm Hv.
  serve_cases s r; try reflexivity; try congruence.
  all: try (destruct Hpath; contradiction).
  all: rewrite Hm in *; discriminate.
Qed.

(** X13.  A signed POST to the root path, not a ping, whose body does
    not parse as an event of the declared type is answered 400 with the
    text [Invalid payload], and the command is not run. *)
Theorem ServeHTTP_bad_payload
        (s : server) (r : Request) (env : Env) (payload : list byte) :
  Path r = "" \/ Path r = "/" ->
  Method r = "POST" ->
  ValidatePayload r (bytes (WebHookSecret s)) = Some payload ->
  WebHookType r <> "ping" ->
  ParseWebHook (WebHookType r) payload = None ->
  serve s r env =
  ([Printf "%-4s %-21s %s" [Method r; RemoteAddr r; Path r];
    SetHeader "Content-Type" "text/plain; charset=utf-8";
    SetHeader "X-Content-Type-Options" "nosniff";
    WriteHeader 400;
    Write ("Invalid payload" ++ nl);
    Printf "- invalid payload" [];
    BodyClose],
   Returned tt).
Proof.
  intros Hpath Hm Hv Hp Hpa.
  unfold ServeHTTP.
  assert (Hguard : negb (Path r =? "") && negb (Path r =? "/") = false).
  { destruct Hpath as [-> | ->]; reflexivity. }
  rewrite Hguard, Hm, Hv. cbn [String.eqb Ascii.eqb Bool.eqb negb].
  apply String.eqb_neq in Hp. rewrite Hp, Hpa. reflexivity.
Qed.

(** X14.  A handler that returns has sent exactly one of the statuses
    200, 400, 401, 404 and 405. *)
Theorem ServeHTTP_status_codes (s : server) (r : Request) (env : Env) :
  snd (serve s r env) = Returned tt ->
  In (response_status (trace (serve s r env)))
     [Some 200%Z; Some 400%Z; Some 401%Z; Some 404%Z; Some 405%Z].
Proof.
  serve_cases s r; cbn; intros H; try discriminate H; tauto.
Qed.

End Handler.

(** ** Handlers running concurrently *)

Lemma sync_step_quiet (a : action) (s s' : server) :
  quiet a = true -> sync_step a s = Some s' -> s' = s.
Proof.
  destruct a; cbn; try discriminate; intros _ H;
    try (inversion H; reflexivity).
  destruct (wg s =? 0)%Z; [inversion H; reflexivity | discriminate].
Qed.

Lemma Forall_set_nth {A : Type} (P : A -> Prop) (i : nat) (x : A) (l : list A) :
  Forall P l -> P x -> Forall P (set_nth i x l).
Proof.
  intros Hl Hx. revert i.
  induction Hl as [|y l Hy Hl IH]; intros i; [destruct i; constructor|].
  destruct i; cbn; constructor; auto.
Qed.

Lemma run_quiet (schedule : list nat) (st st' : system) :
  Forall (fun th => forallb quiet (todo th) = true) (threads st) ->
  run schedule st = Some st' ->
  shared st' = shared st.
Proof.
  revert st. induction schedule as [|i schedule IH]; intros st Hq Hrun.
  - inversion Hrun. reflexivity.
  - cbn in Hrun. unfold step in Hrun.
    destruct (nth_error (threads st) i) as [th|] eqn:Hth; [|discriminate].
    destruct (todo th) as [|a rest] eqn:Htodo; [discriminate|].
    destruct (sync_step a (shared st)) as [s'|] eqn:Hstep; [|discriminate].
    assert (Hquiet : forallb quiet (a :: rest) = true).
    { rewrite <- Htodo.
      apply (proj1 (Forall_forall _ _) Hq th). eapply nth_error_In. exact Hth. }
    cbn in Hquiet. apply andb_true_iff in Hquiet. destruct Hquiet as [Ha Hrest].
    apply (sync_step_quiet a _ _ Ha) in Hstep. subst s'.
    apply IH in Hrun; [exact Hrun|].
    cbn. apply Forall_set_nth; [exact Hq | exact Hrest].
Qed.

Section Concurrent.

Variable Duration_String : Duration -> string.
Variable ValidatePayload : Request -> list byte -> option (list byte).
Variable WebHookType : Request -> string.
Variable ParseWebHook : string -> list byte -> option Event.

(** X15.  However many requests are handled at the same time and
    however their handlers are interleaved, the shared [server] value
    stays as it was: the mutex is never locked and the counter of the
    wait group never leaves its initial value. *)
Theorem handlers_leave_server_unchanged
        (s : server) (requests : list (Request * Env))
        (schedule : list nat) (st : system) :
  run schedule
      (spawn s (map (fun re =>
                       trace (ServeHTTP Duration_String ValidatePayload
                                        WebHookType ParseWebHook
                                        s (fst re) (snd re)))
                    requests))
    = Some st ->
  shared st = s.
Proof.
  intros Hrun. apply run_quiet in Hrun; [exact Hrun|].
  unfold spawn. cbn [threads].
  apply Forall_forall. intros th Hin.
  apply in_map_iff in Hin. destruct Hin as (p & <- & Hin).
  apply in_map_iff in Hin. destruct Hin as (re & <- & _).
  cbn [todo]. apply ServeHTTP_quiet.
Qed.

End Concurrent.

(** ** [mainImpl] and [main] *)

(** X16.  When the watcher cannot be created, or cannot watch the
    executable, [mainImpl] logs the failure and then blocks for ever with
    the server running: it neither waits on the wait group nor returns,
    and the process does not exit. *)
Theorem mainImpl_hangs_without_watcher
        (env : MainEnv) (port : Z) (secret wd exe addr : string) (e : error) :
  flags env = Some (port, secret) ->
  Getwd env = inl wd ->
  Executable env = inl exe ->
  Listen env = inl addr ->
  NewWatcher env = Some e \/ (NewWatcher env = None /\ WatcherAdd env = Some e) ->
  mainImpl env =
    ([Printf "Running in: %s" [wd];
      Printf "Executable: %s" [exe];
      Printf "Listening on: %s" [addr];
      GoListenAndServe addr;
      Printf "Failed to initialize watcher: %v" [e]],
     MHang) /\
  snd (main env) = Hang.
Proof.
  intros Hf Hwd Hexe Hln Hw.
  assert (H : mainImpl env =
    ([Printf "Running in: %s" [wd];
      Printf "Executable: %s" [exe];
      Printf "Listening on: %s" [addr];
      GoListenAndServe addr;
      Printf "Failed to initialize watcher: %v" [e]],
     MHang)).
  { unfold mainImpl, watch_and_drain. rewrite Hf, Hwd, Hexe, Hln.
    destruct Hw as [-> | [-> ->]]; reflexivity. }
  split; [exact H|]. unfold main. rewrite H. reflexivity.
Qed.

(** X17.  Once [mainImpl] has started the HTTP server it returns only
    through [s.wg.Wait()]: a run whose trace contains the start of the
    server either blocks for ever or ends with the wait; a run that
    returns without the wait (a start-up failure) never started the
    server. *)
Theorem mainImpl_returns_only_after_wait (env : MainEnv) (addr : string) :
  In (GoListenAndServe addr) (fst (mainImpl env)) ->
  snd (mainImpl env) = MHang \/
  (exists e, snd (mainImpl env) = MReturn e) /\
  last (fst (mainImpl env)) BodyClose = WgWait.
Proof.
  unfold mainImpl, watch_and_drain.
  destruct (flags env) as [[port secret]|]; [|intros []].
  destruct (Getwd env); [|intros []].
  destruct (Executable env); [|intros []].
  destruct (Listen env); [|cbn; intuition discriminate].
  destruct (NewWatcher env); [left; reflexivity|].
  destruct (WatcherAdd env); [left; reflexivity|].
  destruct (signal env); intros _; right; (split; [eexists|]; reflexivity).
Qed.

(** X18.  The process exits with status 0 in two cases only:
    [flag.Parse] ended it because [-h] or [-help] was given, or the
    watcher was established and delivered something (an event on the
    executable, or a nil value on its error channel) and [mainImpl]
    waited on the wait group.  A server that has started never exits
    successfully on its own. *)
Theorem main_exit_zero_only_after_signal (env : MainEnv) :
  snd (main env) = Exit 0 ->
  (flags env = None /\ help env = true) \/
  (NewWatcher env = None /\
   WatcherAdd env = None /\
   (signal env = EventFired \/ signal env = ErrorFired None) /\
   In WgWait (fst (main env))).
Proof.
  unfold main, mainImpl, watch_and_drain.
  destruct (flags env) as [[port secret]|].
  2:{ destruct (help env); cbn; intros H; [|discriminate H].
      left. split; reflexivity. }
  destruct (Getwd env); [|discriminate].
  destruct (Executable env); [|discriminate].
  destruct (Listen env); [|discriminate].
  destruct (NewWatcher env); [discriminate|].
  destruct (WatcherAdd env); [discriminate|].
  destruct (signal env) as [|[e|]]; cbn; intros H; try discriminate H.
  - right. repeat split; auto. tauto.
  - right. repeat split; auto. tauto.
Qed.

(** ** [pullRepo] and the status query *)

(** X21.  The placeholder is chosen before the output is normalized: a
    failed command whose output is not empty but holds no well-formed
    text is reported with an empty output section, without the
    [<failure>] placeholder and without the error message. *)
Theorem pullRepo_garbage_output
        (Duration_String : Duration -> string) (res : cmd_result)
        (e : exec_error) :
  err res = Some e ->
  out res <> [] ->
  normalizeUTF8 (out res) = [] ->
  snd (pullRepo Duration_String res) =
  Returned
    (bytes ("$ git pull --prune --quiet  (exit:" ++ itoa (exit_code (Some e))
            ++ " in " ++ Duration_String (roundTime (duration res))
            ++ ")" ++ nl),
     false).
Proof.
  intros He Hout Hnorm. unfold pullRepo. cbn.
  rewrite He. unfold reported_output.
  destruct (out res) as [|b0 o] eqn:Ho; [contradiction|].
  cbn [List.length Nat.eqb]. rewrite Hnorm, app_nil_r. reflexivity.
Qed.

Lemma pullRepo_garbage_output_witness :
  snd (pullRepo sample_Duration_String
         {| out := [xff; xfe]; err := Some (ExitError "exit status 128" (Some 128%Z));
            duration := 1500400%Z |}) =
  Returned
    (bytes ("$ git pull --prune --quiet  (exit:128 in 1500000ns)" ++ nl), false).
Proof.
  apply (pullRepo_garbage_output sample_Duration_String
           {| out := [xff; xfe];
              err := Some (ExitError "exit status 128" (Some 128%Z));
              duration := 1500400%Z |}
           (ExitError "exit status 128" (Some 128%Z))).
  - reflexivity.
  - discriminate.
  - vm_compute. reflexivity.
Defined.

Section StatusQuery.

Variable Duration_String : Duration -> string.
Variable ValidatePayload : Request -> list byte -> option (list byte).
Variable WebHookType : Request -> string.
Variable ParseWebHook : string -> list byte -> option Event.

(** X22.  A GET to the root path is answered with the uptime of the
    process whatever its headers and body: the signature is not checked
    before the uptime is disclosed, and nothing else is done. *)
Theorem ServeHTTP_get_discloses_uptime (s : server) (r : Request) (env : Env) :
  Path r = "" \/ Path r = "/" ->
  Method r = "GET" ->
  ServeHTTP Duration_String ValidatePayload WebHookType ParseWebHook s r env =
  ([Printf "%-4s %-21s %s" ["GET"; RemoteAddr r; Path r];
    Write (Duration_String (uptime env));
    BodyClose],
   Returned tt).
Proof.
  intros Hpath Hm. unfold ServeHTTP. rewrite Hm.
  destruct Hpath as [-> | ->]; reflexivity.
Qed.

End StatusQuery.

(** ** The further properties on concrete inputs *)

Lemma roundTime_monotone_witness :
  (roundTime 999999999 <= roundTime 1000000000)%Z.
Proof.
  apply (roundTime_monotone 999999999 1000000000); vm_compute; discriminate.
Defined.

Lemma roundTime_idempotent_witness :
  roundTime (roundTime 999999500) = roundTime 999999500.
Proof.
  apply (roundTime_idempotent 999999500). vm_compute. discriminate.
Defined.

Lemma roundTime_overflow_witness :
  roundTime MaxInt64 = (-9223372036854000000)%Z.
Proof.
  apply (roundTime_overflow MaxInt64).
  split; vm_compute; [reflexivity | discriminate].
Defined.

Lemma ServeHTTP_runs_only_git_pull_witness :
  In (ExecStart cmd)
     (trace (sample_ServeHTTP sample_server push_request sample_env)) /\
  cmd = ["git"; "pull"; "--prune"; "--quiet"].
Proof.
  assert (H : In (ExecStart cmd)
                 (trace (sample_ServeHTTP sample_server push_request sample_env))).
  { vm_compute. right. right. right. left. reflexivity. }
  split; [exact H|].
  apply (ServeHTTP_runs_only_git_pull
           sample_Duration_String sample_ValidatePayload
           sample_WebHookType sample_ParseWebHook
           sample_server push_request sample_env cmd H).
Defined.

Lemma ServeHTTP_method_not_allowed_witness :
  response_status
    (trace (sample_ServeHTTP sample_server
              (sample_request "DELETE" "/" "push" "commit") sample_env))
  = Some 405%Z.
Proof.
  unfold sample_ServeHTTP.
  rewrite (ServeHTTP_method_not_allowed
             sample_Duration_String sample_ValidatePayload
             sample_WebHookType sample_ParseWebHook
             sample_server (sample_request "DELETE" "/" "push" "commit")
             sample_env).
  - reflexivity.
  - right. reflexivity.
  - vm_compute. discriminate.
  - vm_compute. discriminate.
  - vm_compute. discriminate.
Defined.

Lemma ServeHTTP_unauthorized_witness :
  response_status
    (trace (sample_ServeHTTP sample_server unsigned_request sample_env))
  = Some 401%Z /\
  executions
    (trace (sample_ServeHTTP sample_server unsigned_request sample_env))
  = 0%nat.
Proof.
  unfold sample_ServeHTTP.
  rewrite (ServeHTTP_unauthorized
             sample_Duration_String sample_ValidatePayload
             sample_WebHookType sample_ParseWebHook
             sample_server unsigned_request sample_env).
  - split; reflexivity.
  - right. reflexivity.
  - reflexivity.
  - vm_compute. reflexivity.
Defined.

Lemma ServeHTTP_bad_payload_witness :
  response_status
    (trace (sample_ServeHTTP sample_server
              (sample_request "POST" "/" "push" "junk") sample_env))
  = Some 400%Z.
Proof.
  unfold sample_ServeHTTP.
  rewrite (ServeHTTP_bad_payload
             sample_Duration_String sample_ValidatePayload
             sample_WebHookType sample_ParseWebHook
             sample_server (sample_request "POST" "/" "push" "junk")
             sample_env (bytes "junk")).
  - reflexivity.
  - right. reflexivity.
  - reflexivity.
  - vm_compute. reflexivity.
  - vm_compute. discriminate.
  - vm_compute. reflexivity.
Defined.

Lemma ServeHTTP_status_codes_witness :
  In (response_status
        (trace (sample_ServeHTTP sample_server push_request sample_env)))
     [Some 200%Z; Some 400%Z; Some 401%Z; Some 404%Z; Some 405%Z].
Proof.
  apply (ServeHTTP_status_codes
           sample_Duration_String sample_ValidatePayload
           sample_WebHookType sample_ParseWebHook
           sample_server push_request sample_env).
  vm_compute. reflexivity.
Defined.

Lemma handlers_leave_server_unchanged_witness :
  exists st,
    run [0; 1; 0; 0; 1; 0]%nat
        (spawn sample_server
               (map (fun re => trace (sample_ServeHTTP sample_server
                                                       (fst re) (snd re)))
                    [(push_request, sample_env); (delete_request, sample_env)]))
      = Some st /\
    shared st = sample_server.
Proof.
  assert (H : exists st,
             run [0; 1; 0; 0; 1; 0]%nat
                 (spawn sample_server
                        (map (fun re => trace (sample_ServeHTTP sample_server
                                                                (fst re) (snd re)))
                             [(push_request, sample_env);
                              (delete_request, sample_env)]))
             = Some st).
  { vm_compute. eexists. reflexivity. }
  destruct H as [st H]. exists st. split; [exact H|].
  apply (handlers_leave_server_unchanged
           sample_Duration_String sample_ValidatePayload
           sample_WebHookType sample_ParseWebHook
           sample_server
           [(push_request, sample_env); (delete_request, sample_env)]
           [0; 1; 0; 0; 1; 0]%nat st H).
Defined.

Lemma mainImpl_hangs_without_watcher_witness :
  snd (mainImpl unwatched_main_env) = MHang /\
  snd (main unwatched_main_env) = Hang.
Proof.
  destruct (mainImpl_hangs_without_watcher
              unwatched_main_env 8080%Z "s3cret" "/srv/checkout"
              "/usr/local/bin/pullhook" "[::]:8080" "no space left on device"
              eq_refl eq_refl eq_refl eq_refl (or_intror (conj eq_refl eq_refl)))
    as [Himpl Hmain].
  split; [rewrite Himpl; reflexivity | exact Hmain].
Defined.

Lemma mainImpl_returns_only_after_wait_witness :
  snd (mainImpl sample_main_env) = MHang \/
  (exists e, snd (mainImpl sample_main_env) = MReturn e) /\
  last (fst (mainImpl sample_main_env)) BodyClose = WgWait.
Proof.
  apply (mainImpl_returns_only_after_wait sample_main_env "[::]:8080").
  vm_compute. right. right. right. left. reflexivity.
Defined.

Lemma main_exit_zero_only_after_signal_witness :
  (flags sample_main_env = None /\ help sample_main_env = true) \/
  (NewWatcher sample_main_env = None /\
   WatcherAdd sample_main_env = None /\
   (signal sample_main_env = EventFired \/
    signal sample_main_env = ErrorFired None) /\
   In WgWait (fst (main sample_main_env))).
Proof.
  apply (main_exit_zero_only_after_signal sample_main_env).
  reflexivity.
Defined.

Lemma ServeHTTP_get_discloses_uptime_witness :
  response_body
    (trace (sample_ServeHTTP sample_server
              (sample_request "GET" "/" "" "") sample_env))
  = "1500000000ns".
Proof.
  unfold sample_ServeHTTP.
  rewrite (ServeHTTP_get_discloses_uptime
             sample_Duration_String sample_ValidatePayload
             sample_WebHookType sample_ParseWebHook
             sample_server (sample_request "GET" "/" "" "") sample_env).
  - reflexivity.
  - right. reflexivity.
  - reflexivity.
Defined.
